(** * userasync/devicefile/chardev.c: a character device with blocking read

    A shallow embedding of the kernel module [chardev.c] (and of the one
    call that [signals/client.c] makes into it), together with the
    properties of its readiness protocol.

    Modelling conventions.
    - The module's globals ([counter], [read_timer], [queue], [d],
      [chardev_major], [chardev_class]) are the fields of [kstate]; the
      kernel's clock [jiffies] and the user address space are fields too.
    - [chardev_read] is not atomic.  It is embedded as a small-step
      machine [read_step] whose control points carry the source line
      numbers; each step performs at most one access to shared state.
      [chardev_read] itself is the run of that machine for one caller with
      nobody else scheduled in between.
    - [timer_func] is embedded twice: as the function of lines 45-52 run
      without interruption (event [EvFire]), and line by line
      ([timer_step], events [EvExpire] and [EvTimer]), so that the other
      processors can act between two of its lines.
    - [chardev_exit] is run by the kernel only while no file of the
      device is open (the file operations name THIS_MODULE as owner), so
      the machine runs it only while no call of [chardev_read] is in
      progress.
    - Kernel services that are not part of this repository (kmalloc, the
      chrdev registry, copy_to_user, the timer wheel, wait queues) are
      modelled by what they return and by the state of this module they
      change.  printk lines are diagnostics and are left out. *)

From Stdlib Require Import ZArith Lia.
From Stdlib.Strings Require Import Byte.
From stdpp Require Import base option list gmap.

Local Open Scope Z_scope.

(** ** Constants of the kernel headers *)

(** include/uapi/asm-generic/errno-base.h, errno.h *)
Definition EPERM : Z := 1.
Definition EAGAIN : Z := 11.
Definition ENOMEM : Z := 12.
Definition EFAULT : Z := 14.
Definition ENOTTY : Z := 25.

(** include/uapi/asm-generic/fcntl.h: O_NONBLOCK is octal 00004000 *)
Definition O_NONBLOCK : Z := 2048.

(** [unsigned long] is 64 bits wide; arithmetic on it wraps. *)
Definition BITS_PER_LONG : Z := 64.
Definition ulong (z : Z) : Z := z mod 2 ^ BITS_PER_LONG.

(** [int] is 32 bits wide.  The product [HZ * 5] of lines 49 and 184 is an
    [int] product: when it leaves the range of [int] the compiled code
    keeps its low 32 bits, read as a signed number, and the conversion to
    [unsigned long] extends the sign. *)
Definition INT_MAX : Z := 2147483647.
Definition int_wrap (z : Z) : Z := (z + 2 ^ 31) mod 2 ^ 32 - 2 ^ 31.

(** time_after_eq(a, b) is [(long)(a - b) >= 0]. *)
Definition time_after_eq (a b : Z) : bool :=
  ulong (a - b) <? 2 ^ (BITS_PER_LONG - 1).

(** ** Data *)

(** A kernel pointer as the module tests it: NULL, an ERR_PTR, or an
    object. *)
Inductive kptr : Type :=
| PNull
| PErr (e : Z)
| PObj.

Definition IS_ERR (p : kptr) : bool :=
  match p with PErr _ => true | _ => false end.

Definition is_null (p : kptr) : bool :=
  match p with PNull => true | _ => false end.

(** struct timer_list, the fields the module touches.  [pending] is
    timer_pending(): the timer is queued on the timer wheel.  The
    [function] field only ever holds [timer_func]. *)
Record timer_list : Type := {
  expires : Z;
  data : Z;
  function : bool;
  pending : bool;
}.

(** struct chardev, without the embedded cdev object. *)
Record chardev : Type := {
  minor : Z;
  status : Z;
  device : kptr;
}.

(** Control points of [timer_func], named after the source lines. *)
Inductive tlabel : Type :=
| T48      (* atomic_set(&counter, 1); *)
| T49      (* read_timer.expires = jiffies + (HZ * 5); *)
| T50      (* add_timer(&read_timer); *)
| T51.     (* wake_up_interruptible(&queue); *)

(** The module's global variables, the clock and user memory.  An address
    is mapped (and writable) exactly when it is a key of [umem].  [queue]
    holds the ids of the tasks sleeping on the wait queue head.
    [timer_running] is the line at which a call of [timer_func] stands
    while the timer wheel is running it, and [None] otherwise. *)
Record kstate : Type := {
  chardev_major : Z;
  chardev_class : kptr;
  read_timer : timer_list;
  counter : Z;
  queue : list nat;
  d : option chardev;
  jiffies : Z;
  umem : gmap Z byte;
  timer_running : option tlabel;
}.

Definition set_major (v : Z) (s : kstate) : kstate :=
  {| chardev_major := v; chardev_class := chardev_class s;
     read_timer := read_timer s; counter := counter s; queue := queue s;
     d := d s; jiffies := jiffies s; umem := umem s;
     timer_running := timer_running s |}.

Definition set_class (v : kptr) (s : kstate) : kstate :=
  {| chardev_major := chardev_major s; chardev_class := v;
     read_timer := read_timer s; counter := counter s; queue := queue s;
     d := d s; jiffies := jiffies s; umem := umem s;
     timer_running := timer_running s |}.

Definition set_timer (v : timer_list) (s : kstate) : kstate :=
  {| chardev_major := chardev_major s; chardev_class := chardev_class s;
     read_timer := v; counter := counter s; queue := queue s;
     d := d s; jiffies := jiffies s; umem := umem s;
     timer_running := timer_running s |}.

Definition set_queue (v : list nat) (s : kstate) : kstate :=
  {| chardev_major := chardev_major s; chardev_class := chardev_class s;
     read_timer := read_timer s; counter := counter s; queue := v;
     d := d s; jiffies := jiffies s; umem := umem s;
     timer_running := timer_running s |}.

Definition set_d (v : option chardev) (s : kstate) : kstate :=
  {| chardev_major := chardev_major s; chardev_class := chardev_class s;
     read_timer := read_timer s; counter := counter s; queue := queue s;
     d := v; jiffies := jiffies s; umem := umem s;
     timer_running := timer_running s |}.

Definition set_jiffies (v : Z) (s : kstate) : kstate :=
  {| chardev_major := chardev_major s; chardev_class := chardev_class s;
     read_timer := read_timer s; counter := counter s; queue := queue s;
     d := d s; jiffies := v; umem := umem s;
     timer_running := timer_running s |}.

Definition set_running (v : option tlabel) (s : kstate) : kstate :=
  {| chardev_major := chardev_major s; chardev_class := chardev_class s;
     read_timer := read_timer s; counter := counter s; queue := queue s;
     d := d s; jiffies := jiffies s; umem := umem s;
     timer_running := v |}.

Definition set_umem (v : gmap Z byte) (s : kstate) : kstate :=
  {| chardev_major := chardev_major s; chardev_class := chardev_class s;
     read_timer := read_timer s; counter := counter s; queue := queue s;
     d := d s; jiffies := jiffies s; umem := v;
     timer_running := timer_running s |}.

(** ** Kernel primitives *)

Definition atomic_read (s : kstate) : Z := counter s.

Definition atomic_set (v : Z) (s : kstate) : kstate :=
  {| chardev_major := chardev_major s; chardev_class := chardev_class s;
     read_timer := read_timer s; counter := v; queue := queue s;
     d := d s; jiffies := jiffies s; umem := umem s;
     timer_running := timer_running s |}.

(** copy_to_user(to, from, n) with [n = length from]: bytes are stored in
    ascending order until an unmapped address is met; the result is the
    number of bytes that could not be copied. *)
Fixpoint copy_to_user (to : Z) (from : list byte) (m : gmap Z byte)
  : Z * gmap Z byte :=
  match from with
  | [] => (0, m)
  | b :: rest =>
      match m !! to with
      | Some _ => copy_to_user (to + 1) rest (<[to := b]> m)
      | None => (Z.of_nat (length from), m)
      end
  end.

(** The string literal "test" of line 67. *)
Definition payload : list byte := ["t"%byte; "e"%byte; "s"%byte; "t"%byte].

Definition init_timer (t : timer_list) : timer_list :=
  {| expires := expires t; data := data t; function := function t;
     pending := false |}.

(** add_timer() of a timer that is not pending; the kernel stops with a
    BUG on a pending one.  The callers below only reach it with the timer
    not pending: after init_timer() in [chardev_init], and in [timer_func]
    after the timer wheel has taken the timer off ([fire], [expire];
    [timer_step] tests it). *)
Definition add_timer (t : timer_list) : timer_list :=
  {| expires := expires t; data := data t; function := function t;
     pending := true |}.

Definition del_timer (t : timer_list) : timer_list :=
  {| expires := expires t; data := data t; function := function t;
     pending := false |}.

Definition set_expires (v : Z) (t : timer_list) : timer_list :=
  {| expires := v; data := data t; function := function t;
     pending := pending t |}.

(** wake_up_interruptible(&queue): the waiters of [wait_event_interruptible]
    are non-exclusive, so every one of them is made runnable. *)
Definition wake_up_interruptible (s : kstate) : kstate := set_queue [] s.

(** ** Sessions and callers *)

(** struct file: the open-file flags are all the driver looks at. *)
Record file : Type := {
  f_flags : Z;
}.

(** Control points of [chardev_read], named after the source lines.
    [Sched] is the inside of schedule(), entered from line 63. *)
Inductive label : Type :=
| L59      (* while (atomic_read(&counter) == 0) *)
| L60      (* if (filp->f_flags & O_NONBLOCK) return -EAGAIN; *)
| L63      (* wait_event_interruptible(queue, atomic_read(&counter) == 1) *)
| Sched    (* asleep on [queue] *)
| L67      (* if (copy_to_user(buf, "test", 4)) return -EFAULT; *)
| L70      (* atomic_set(&counter, 0); return 4; *)
| Ret (r : Z).

(** One call of [chardev_read] in progress: its arguments, where it stands,
    and whether its task has a signal pending.  [t_offp] is the value
    stored at [offp]. *)
Record task : Type := {
  t_filp : file;
  t_buf : Z;
  t_count : Z;
  t_offp : Z;
  t_pc : label;
  t_sig : bool;
}.

Definition goto (l : label) (t : task) : task :=
  {| t_filp := t_filp t; t_buf := t_buf t; t_count := t_count t;
     t_offp := t_offp t; t_pc := l; t_sig := t_sig t |}.

Definition raise_signal (t : task) : task :=
  {| t_filp := t_filp t; t_buf := t_buf t; t_count := t_count t;
     t_offp := t_offp t; t_pc := t_pc t; t_sig := true |}.

Definition enter_read (f : file) (buf count off : Z) : task :=
  {| t_filp := f; t_buf := buf; t_count := count; t_offp := off;
     t_pc := L59; t_sig := false |}.

Definition on_queue (cur : nat) (q : list nat) : bool :=
  existsb (Nat.eqb cur) q.

Definition leave_queue (cur : nat) (q : list nat) : list nat :=
  List.filter (fun x => negb (Nat.eqb cur x)) q.

Definition returned (t : task) : bool :=
  match t_pc t with Ret _ => true | _ => false end.

(** A task can take a step unless it has returned or sleeps on [queue]. *)
Definition runnable (cur : nat) (t : task) (s : kstate) : bool :=
  match t_pc t with
  | Ret _ => false
  | Sched => negb (on_queue cur (queue s))
  | _ => true
  end.

(** ** The driver *)

Section Driver.

(** CONFIG_HZ, the number of jiffies per second. *)
Variable HZ : Z.

(** Lines 45-52. *)
Definition timer_func (data : Z) (s : kstate) : kstate :=
  let s := atomic_set 1 s in
  let s := set_timer
             (set_expires (ulong (jiffies s + int_wrap (HZ * 5)))
                (read_timer s)) s in
  let s := set_timer (add_timer (read_timer s)) s in
  wake_up_interruptible s.

(** Lines 48-51 one at a time: the line at [timer_running] is executed.
    Nothing happens when no call is running, nor at line 50 when the timer
    is pending (the kernel's BUG). *)
Definition timer_step (s : kstate) : option kstate :=
  match timer_running s with
  | Some T48 => Some (set_running (Some T49) (atomic_set 1 s))
  | Some T49 =>
      Some (set_running (Some T50)
              (set_timer
                 (set_expires (ulong (jiffies s + int_wrap (HZ * 5)))
                    (read_timer s)) s))
  | Some T50 =>
      if pending (read_timer s) then None
      else Some (set_running (Some T51)
                   (set_timer (add_timer (read_timer s)) s))
  | Some T51 => Some (set_running None (wake_up_interruptible s))
  | None => None
  end.

(** Lines 54-73, one atomic action of task [cur] at a time.

    Line 63: [wait_event_interruptible] returns at once when the condition
    holds; otherwise it returns -ERESTARTSYS when a signal is pending (the
    result is discarded by the caller), and otherwise puts the task on
    [queue] and sleeps.  prepare_to_wait() orders the enqueueing before the
    test of the condition, so the test and the enqueueing are one step.  A
    woken task tests the condition again. *)
Definition read_step (cur : nat) (t : task) (s : kstate) : task * kstate :=
  match t_pc t with
  | L59 =>
      if atomic_read s =? 0 then (goto L60 t, s) else (goto L67 t, s)
  | L60 =>
      if Z.land (f_flags (t_filp t)) O_NONBLOCK =? 0
      then (goto L63 t, s)
      else (goto (Ret (- EAGAIN)) t, s)
  | L63 =>
      if atomic_read s =? 1 then (goto L59 t, s)
      else if t_sig t then (goto L59 t, s)
      else (goto Sched t, set_queue (cur :: queue s) s)
  | Sched => (goto L63 t, s)
  | L67 =>
      let '(uncopied, m) := copy_to_user (t_buf t) payload (umem s) in
      if uncopied =? 0
      then (goto L70 t, set_umem m s)
      else (goto (Ret (- EFAULT)) t, set_umem m s)
  | L70 => (goto (Ret 4) t, atomic_set 0 s)
  | Ret _ => (t, s)
  end.

(** The caller runs until it returns or goes to sleep. *)
Fixpoint run_task (fuel : nat) (cur : nat) (t : task) (s : kstate)
  : task * kstate :=
  match fuel with
  | O => (t, s)
  | S n =>
      if runnable cur t s
      then let '(t', s') := read_step cur t s in run_task n cur t' s'
      else (t, s)
  end.

(** [chardev_read] called by task [cur] and run without anybody else being
    scheduled: every path from line 59 ends after at most three steps. *)
Definition chardev_read (cur : nat) (f : file) (buf count off : Z)
  (s : kstate) : task * kstate :=
  run_task 4 cur (enter_read f buf count off) s.

(** What the caller of [chardev_read] gets: the returned value, or nothing
    while the call is suspended. *)
Definition retval (t : task) : option Z :=
  match t_pc t with Ret r => Some r | _ => None end.

(** Lines 75-79. *)
Definition chardev_write (f : file) (buf count off : Z) (s : kstate)
  : Z * Z * kstate :=
  (- EPERM, off, s).

(** Lines 97-101. *)
Definition chardev_ioctl (f : file) (cmd arg : Z) (s : kstate) : Z * kstate :=
  (- ENOTTY, s).

(** What the kernel answers to the calls of [chardev_init]: [kmalloc]
    gives NULL or a block of unspecified contents. *)
Record init_env : Type := {
  kmalloc_ret : option chardev;
  chrdev_region_ret : Z;
  alloc_major : Z;
  class_create_ret : kptr;
  device_create_ret : kptr;
  cdev_add_ret : Z;
}.

Definition set_status (v : Z) (c : chardev) : chardev :=
  {| minor := minor c; status := v; device := device c |}.

Definition set_minor (v : Z) (c : chardev) : chardev :=
  {| minor := v; status := status c; device := device c |}.

Definition set_device (v : kptr) (c : chardev) : chardev :=
  {| minor := minor c; status := status c; device := v |}.

(** Label err1 of [chardev_init]: kfree(d). *)
Definition err1 (s : kstate) : kstate := set_d None s.

(** Lines 112-201.  The labels err4, err3 and err2 release kernel objects
    only and all fall through to err1. *)
Definition chardev_init (e : init_env) (s : kstate) : Z * kstate :=
  match kmalloc_ret e with
  | None => (- ENOMEM, set_d None s)
  | Some c =>
      let c := set_minor 0 (set_status 0 c) in
      let s := set_d (Some c) s in
      let s := if chardev_major s >? 0 then s
               else set_major (alloc_major e) s in
      let ret := chrdev_region_ret e in
      if ret <? 0 then (ret, err1 s) else
      let s := set_class (class_create_ret e) s in
      if IS_ERR (chardev_class s)
      then (- ENOMEM, err1 (set_class PNull s)) else
      let c := set_device (device_create_ret e) c in
      let s := set_d (Some c) s in
      if IS_ERR (device c) then (- ENOMEM, err1 s) else
      let ret := cdev_add_ret e in
      if ret <? 0
      then (ret, err1 (set_d (Some (set_status 0 c)) s)) else
      let s := set_d (Some (set_status 1 c)) s in
      let s := atomic_set 1 s in
      let s := set_timer (init_timer (read_timer s)) s in
      let s := set_timer
                 {| expires := ulong (jiffies s + int_wrap (HZ * 5));
                    data := jiffies s; function := true;
                    pending := pending (read_timer s) |} s in
      let s := set_timer (add_timer (read_timer s)) s in
      (0, s)
  end.

(** Lines 203-233.  [d] is dereferenced, so the function is defined only
    while the structure allocated by [chardev_init] exists.  cdev_del,
    device_destroy, unregister_chrdev_region and class_destroy release
    kernel objects that are not part of this state; what remains of them
    here is the resetting of [d->device] and [chardev_class]. *)
Definition chardev_exit (s : kstate) : option kstate :=
  let s := set_timer (del_timer (read_timer s)) s in
  match d s with
  | None => None
  | Some c =>
      let c := if negb (IS_ERR (device c)) && negb (is_null (device c))
               then set_device PNull c else c in
      let s := set_d (Some c) s in
      let s := if negb (IS_ERR (chardev_class s))
                  && negb (is_null (chardev_class s))
               then set_class PNull s else s in
      Some s
  end.

(** signals/client.c, lines 49-53: the registration request of the
    companion process, as it reaches the driver.  [PROCESS_ID] is the
    command number of the header ioctl.h. *)
Definition client_register (PROCESS_ID : Z) (f : file) (pid : Z) (s : kstate)
  : Z * kstate :=
  chardev_ioctl f PROCESS_ID pid s.

(** ** The device with its callers *)

Record world : Type := {
  ks : kstate;
  tasks : list task;
}.

Inductive event : Type :=
| EvTick                                 (* the clock advances by one jiffy *)
| EvFire                                 (* the timer wheel runs read_timer *)
| EvExpire                               (* ... or only starts timer_func *)
| EvTimer                                (* timer_func runs its next line *)
| EvRead (f : file) (buf count off : Z)  (* a new task calls chardev_read *)
| EvStep (cur : nat)                     (* task [cur] takes its next step *)
| EvSignal (cur : nat)                   (* a signal is sent to task [cur] *)
| EvExit.                                (* the module is unloaded *)

(** The timer wheel runs an expired timer: it takes the timer off the wheel
    (the timer is no longer pending) and calls its function with its data.
    The call is enabled once [jiffies] has reached [expires], and the wheel
    runs one call of a timer's function at a time.  [fire] is the whole
    call without interruption. *)
Definition fire (s : kstate) : option kstate :=
  match timer_running s with
  | None =>
      if pending (read_timer s)
         && time_after_eq (jiffies s) (expires (read_timer s))
      then Some (timer_func (data (read_timer s))
                   (set_timer (del_timer (read_timer s)) s))
      else None
  | Some _ => None
  end.

(** [expire] is the start of the call only: the timer is taken off the
    wheel and [timer_func] stands at its first line. *)
Definition expire (s : kstate) : option kstate :=
  match timer_running s with
  | None =>
      if pending (read_timer s)
         && time_after_eq (jiffies s) (expires (read_timer s))
      then Some (set_running (Some T48)
                   (set_timer (del_timer (read_timer s)) s))
      else None
  | Some _ => None
  end.

Definition exec (e : event) (w : world) : option world :=
  match e with
  | EvTick =>
      Some {| ks := set_jiffies (ulong (jiffies (ks w) + 1)) (ks w);
              tasks := tasks w |}
  | EvFire =>
      match fire (ks w) with
      | Some s => Some {| ks := s; tasks := tasks w |}
      | None => None
      end
  | EvExpire =>
      match expire (ks w) with
      | Some s => Some {| ks := s; tasks := tasks w |}
      | None => None
      end
  | EvTimer =>
      match timer_step (ks w) with
      | Some s => Some {| ks := s; tasks := tasks w |}
      | None => None
      end
  | EvRead f buf count off =>
      Some {| ks := ks w; tasks := tasks w ++ [enter_read f buf count off] |}
  | EvStep cur =>
      match tasks w !! cur with
      | Some t =>
          if runnable cur t (ks w)
          then let '(t', s') := read_step cur t (ks w) in
               Some {| ks := s'; tasks := <[cur := t']> (tasks w) |}
          else None
      | None => None
      end
  | EvSignal cur =>
      match tasks w !! cur with
      | Some t =>
          if returned t then None
          else Some {| ks := set_queue (leave_queue cur (queue (ks w))) (ks w);
                       tasks := <[cur := raise_signal t]> (tasks w) |}
      | None => None
      end
  | EvExit =>
      if forallb returned (tasks w)
      then match chardev_exit (ks w) with
           | Some s => Some {| ks := s; tasks := tasks w |}
           | None => None
           end
      else None
  end.

Fixpoint run (sched : list event) (w : world) : option world :=
  match sched with
  | [] => Some w
  | e :: rest =>
      match exec e w with
      | Some w' => run rest w'
      | None => None
      end
  end.

End Driver.

(** ** Loading the module *)

(** The module's globals as the loader leaves them: [chardev_major] is
    initialised to 0, [queue] to the empty wait queue, everything else is
    zero-filled.  [j] is the clock and [m] the user memory at that time. *)
Definition module_image (j : Z) (m : gmap Z byte) : kstate :=
  {| chardev_major := 0; chardev_class := PNull;
     read_timer := {| expires := 0; data := 0; function := false;
                      pending := false |};
     counter := 0; queue := []; d := None; jiffies := j; umem := m;
     timer_running := None |}.

(** The device starts when [chardev_init] does not fail; nobody has called
    it yet. *)
Definition insmod (HZ : Z) (e : init_env) (j : Z) (m : gmap Z byte)
  : option world :=
  let '(ret, s) := chardev_init HZ e (module_image j m) in
  if ret <? 0 then None else Some {| ks := s; tasks := [] |}.

(** ** Counting along a schedule *)





(** The calls of [timer_func], whole or started. *)
Fixpoint fires (sched : list event) : nat :=
  match sched with
  | [] => O
  | EvFire :: rest => S (fires rest)
  | EvExpire :: rest => S (fires rest)
  | _ :: rest => fires rest
  end.

(** No call is in progress. *)
Definition idle (w : world) : bool := forallb returned (tasks w).



(** A session is in blocking mode when O_NONBLOCK is clear. *)
Definition nonblocking (f : file) : bool :=
  negb (Z.land (f_flags f) O_NONBLOCK =? 0).

(** ** A concrete machine *)

Module Scenario.

(** CONFIG_HZ=100; eight mapped bytes of user memory at 100..107. *)
Definition HZ : Z := 100.

Definition mem8 : gmap Z byte :=
  list_to_map
    (map (fun a => (a, "000"%byte)) [100; 101; 102; 103; 104; 105; 106; 107]).

Definition env_ok : init_env :=
  {| kmalloc_ret := Some {| minor := 0; status := 0; device := PNull |};
     chrdev_region_ret := 0; alloc_major := 250;
     class_create_ret := PObj; device_create_ret := PObj;
     cdev_add_ret := 0 |}.

Definition boot : world :=
  {| ks := snd (chardev_init HZ env_ok (module_image 1000 mem8));
     tasks := [] |}.

(** The machine one period after [boot], with a reader asleep. *)
Definition due : world :=
  {| ks := set_queue [0%nat] (atomic_set 0 (set_jiffies 1500 (ks boot)));
     tasks := [goto Sched (enter_read {| f_flags := 0 |} 100 4 0)] |}.

(** [due] after the timer has run. *)
Definition refired : world :=
  {| ks := timer_func HZ 1000
             (set_timer (del_timer (read_timer (ks due))) (ks due));
     tasks := tasks due |}.

Definition blocking_file : file := {| f_flags := 0 |}.
Definition nonblocking_file : file := {| f_flags := O_NONBLOCK |}.

(** One complete call by task [cur] that finds the flag set. *)
Definition whole_read (cur : nat) : list event :=
  [EvRead blocking_file 100 4 0; EvStep cur; EvStep cur; EvStep cur].

(** Task 0 takes the initial readiness; one period later the timer fires
    once; tasks 1 and 2 then both pass line 59 before either reaches
    line 70. *)
Definition race : list event :=
  whole_read 0
  ++ repeat EvTick 500 ++ [EvFire]
  ++ [EvRead blocking_file 100 4 0; EvRead blocking_file 104 4 0;
      EvStep 1%nat; EvStep 2%nat;
      EvStep 1%nat; EvStep 2%nat;
      EvStep 1%nat; EvStep 2%nat].

(** The machine at the end of [race]. *)
Definition raced : world :=
  match run HZ race boot with
  | Some w => w
  | None => boot
  end.

(** Two reads one after the other around one timer fire; the second read
    sleeps until the timer wakes it. *)
Definition serve : list event :=
  whole_read 0
  ++ [EvRead blocking_file 104 4 0; EvStep 1%nat; EvStep 1%nat; EvStep 1%nat]
  ++ repeat EvTick 500 ++ [EvFire]
  ++ [EvStep 1%nat; EvStep 1%nat; EvStep 1%nat; EvStep 1%nat;
      EvStep 1%nat].

Definition served : world :=
  match run HZ serve boot with
  | Some w => w
  | None => boot
  end.



(** Task 0 takes the initial readiness; one period later the timer
    expires and [timer_func] is started. *)
Definition expiry : list event :=
  whole_read 0 ++ repeat EvTick 500 ++ [EvExpire].

Definition expired : world :=
  match run HZ expiry boot with
  | Some w => w
  | None => boot
  end.

(** ... and the module is unloaded before [timer_func] has run line 48. *)
Definition unload_race : list event := expiry ++ [EvExit].

Definition torn : world :=
  match run HZ unload_race boot with
  | Some w => w
  | None => boot
  end.

(** [torn] after [timer_func] has run lines 48 and 49. *)
Definition rearming : world :=
  match run HZ [EvTimer; EvTimer] torn with
  | Some w => w
  | None => torn
  end.

(** [torn] after [timer_func] has run to its end. *)
Definition unloaded : world :=
  match run HZ [EvTimer; EvTimer; EvTimer; EvTimer] torn with
  | Some w => w
  | None => torn
  end.

(** The module is unloaded while the timer is pending and its function is
    not running. *)
Definition quiet : world :=
  match exec HZ EvExit boot with
  | Some w => w
  | None => boot
  end.

(** [quiet] one period and one more read later. *)
Definition quiet_later : world :=
  match run HZ (repeat EvTick 500 ++ whole_read 0) quiet with
  | Some w => w
  | None => quiet
  end.

(** Two periods, with a fire of the timer at the end of each. *)
Definition two_fires : list event :=
  repeat EvTick 500 ++ [EvFire] ++ repeat EvTick 500 ++ [EvFire].

Definition fired_twice : world :=
  match run HZ two_fires boot with
  | Some w => w
  | None => boot
  end.



End Scenario.

(** ** Invariants of the readiness protocol *)

Definition flag_ok (s : kstate) : Prop := counter s = 0 \/ counter s = 1.

(** Only a caller in blocking mode gets to line 63. *)
Definition waits_only_if_blocking (t : task) : Prop :=
  t_pc t = L63 \/ t_pc t = Sched -> nonblocking (t_filp t) = false.

(** What holds in every state the device reaches: the flag is 0 or 1 and
    the callers at line 63 are in blocking mode. *)
Definition inv (w : world) : Prop :=
  flag_ok (ks w)
  /\ Forall waits_only_if_blocking (tasks w).




(** While a call of [timer_func] stands at lines 48-50 the timer is not
    pending. *)
Definition callback_ok (s : kstate) : Prop :=
  match timer_running s with
  | Some T48 | Some T49 | Some T50 => pending (read_timer s) = false
  | _ => True
  end.

(** ** The kernel calls of init and exit *)

(** The kernel services called by [chardev_init] and [chardev_exit]. *)
Inductive kcall : Type :=
| Kmalloc
| Kfree
| Register_chrdev_region
| Alloc_chrdev_region
| Unregister_chrdev_region
| Class_create
| Class_destroy
| Device_create
| Device_destroy
| Cdev_init
| Cdev_add
| Cdev_del
| Init_timer
| Add_timer
| Del_timer.

(** The call that gives back what a successful call has acquired. *)
Definition undo (c : kcall) : option kcall :=
  match c with
  | Kmalloc => Some Kfree
  | Register_chrdev_region | Alloc_chrdev_region =>
      Some Unregister_chrdev_region
  | Class_create => Some Class_destroy
  | Device_create => Some Device_destroy
  | Cdev_add => Some Cdev_del
  | Add_timer => Some Del_timer
  | _ => None
  end.

(** The releases that undo the calls [l], last acquired first. *)
Definition unwind (l : list kcall) : list kcall :=
  rev (omap undo l).

(** Lines 112-201 again, with the kernel calls made, in order.  The labels
    err4, err3, err2 and err1 fall through to one another. *)
Definition chardev_init_traced (HZ : Z) (e : init_env) (s : kstate)
  : Z * kstate * list kcall :=
  match kmalloc_ret e with
  | None => (- ENOMEM, set_d None s, [Kmalloc])
  | Some c =>
      let c := set_minor 0 (set_status 0 c) in
      let s := set_d (Some c) s in
      let region := if chardev_major s >? 0 then Register_chrdev_region
                    else Alloc_chrdev_region in
      let s := if chardev_major s >? 0 then s
               else set_major (alloc_major e) s in
      let ret := chrdev_region_ret e in
      if ret <? 0 then (ret, err1 s, [Kmalloc; region; Kfree]) else
      let s := set_class (class_create_ret e) s in
      if IS_ERR (chardev_class s)
      then (- ENOMEM, err1 (set_class PNull s),
            [Kmalloc; region; Class_create;
             Unregister_chrdev_region; Kfree]) else
      let c := set_device (device_create_ret e) c in
      let s := set_d (Some c) s in
      if IS_ERR (device c)
      then (- ENOMEM, err1 s,
            [Kmalloc; region; Class_create; Device_create;
             Class_destroy; Unregister_chrdev_region; Kfree]) else
      let ret := cdev_add_ret e in
      if ret <? 0
      then (ret, err1 (set_d (Some (set_status 0 c)) s),
            [Kmalloc; region; Class_create; Device_create; Cdev_init;
             Cdev_add;
             Device_destroy; Class_destroy; Unregister_chrdev_region;
             Kfree]) else
      let s := set_d (Some (set_status 1 c)) s in
      let s := atomic_set 1 s in
      let s := set_timer (init_timer (read_timer s)) s in
      let s := set_timer
                 {| expires := ulong (jiffies s + int_wrap (HZ * 5));
                    data := jiffies s; function := true;
                    pending := pending (read_timer s) |} s in
      let s := set_timer (add_timer (read_timer s)) s in
      (0, s,
       [Kmalloc; region; Class_create; Device_create; Cdev_init; Cdev_add;
        Init_timer; Add_timer])
  end.

(** Lines 203-233 again, with the kernel calls made, in order. *)
Definition chardev_exit_traced (s : kstate) : option (kstate * list kcall) :=
  let s := set_timer (del_timer (read_timer s)) s in
  match d s with
  | None => None
  | Some c =>
      let t1 := if status c =? 1 then [Cdev_del] else [] in
      let t2 := if negb (IS_ERR (device c)) && negb (is_null (device c))
                then [Device_destroy] else [] in
      let c := if negb (IS_ERR (device c)) && negb (is_null (device c))
               then set_device PNull c else c in
      let s := set_d (Some c) s in
      let t3 := if chardev_major s >? 0 then [Unregister_chrdev_region]
                else [] in
      let t4 := if negb (IS_ERR (chardev_class s))
                   && negb (is_null (chardev_class s))
                then [Class_destroy] else [] in
      let s := if negb (IS_ERR (chardev_class s))
                  && negb (is_null (chardev_class s))
               then set_class PNull s else s in
      Some (s, [Del_timer] ++ t1 ++ t2 ++ t3 ++ t4)
  end.

(** ** More counting along a schedule *)



(** The values [chardev_read] returns. *)
Definition read_result (t : task) : Prop :=
  match t_pc t with
  | Ret r =>
      r = 4 \/ r = - EFAULT
      \/ (r = - EAGAIN /\ nonblocking (t_filp t) = true)
  | _ => True
  end.

(** An entry of the wait queue is a task asleep at line 63. *)
Definition queued_asleep (w : world) : Prop :=
  forall cur : nat,
    on_queue cur (queue (ks w)) = true ->
    exists t : task, tasks w !! cur = Some t /\ t_pc t = Sched.

(** A caller in blocking mode with a signal pending that is in the loop of
    lines 59-64 and not on the wait queue. *)
Definition spinning (cur : nat) (t : task) (s : kstate) : Prop :=
  nonblocking (t_filp t) = false
  /\ t_sig t = true
  /\ on_queue cur (queue s) = false
  /\ (t_pc t = L59 \/ t_pc t = L60 \/ t_pc t = L63 \/ t_pc t = Sched).


(** * Properties *)

(** ** copy_to_user *)

Lemma copy_to_user_outside (from : list byte) (to : Z) (m : gmap Z byte) (a : Z) :
  a < to \/ to + Z.of_nat (length from) <= a ->
  snd (copy_to_user to from m) !! a = m !! a.
Proof.
  revert to m. induction from as [|b rest IH]; intros to m Ha; simpl; [done|].
  destruct (m !! to) eqn:E; simpl; [|done].
  rewrite IH by (simpl in Ha; lia).
  apply lookup_insert_ne. simpl in Ha. lia.
Qed.

Lemma copy_to_user_mapped (from : list byte) (to : Z) (m : gmap Z byte) (a : Z) :
  is_Some (snd (copy_to_user to from m) !! a) <-> is_Some (m !! a).
Proof.
  revert to m. induction from as [|b rest IH]; intros to m; simpl; [done|].
  destruct (m !! to) eqn:E; simpl; [|done].
  rewrite IH. destruct (decide (to = a)) as [->|Hne].
  - rewrite lookup_insert_eq, E. split; eauto.
  - by rewrite lookup_insert_ne.
Qed.

Lemma copy_to_user_uncopied (from : list byte) (to : Z) (m : gmap Z byte) :
  0 <= fst (copy_to_user to from m) <= Z.of_nat (length from).
Proof.
  revert to m. induction from as [|b rest IH]; intros to m; simpl; [lia|].
  destruct (m !! to); simpl; [|lia].
  specialize (IH (to + 1) (<[to:=b]> m)). lia.
Qed.

Lemma copy_to_user_complete (from : list byte) (to : Z) (m : gmap Z byte) :
  fst (copy_to_user to from m) = 0 <->
  forall i : nat, (i < length from)%nat -> is_Some (m !! (to + Z.of_nat i)).
Proof.
  revert to m. induction from as [|b rest IH]; intros to m; simpl.
  - split; [intros _ i Hi; lia | done].
  - destruct (m !! to) eqn:E; simpl.
    + rewrite IH. split.
      * intros H [|i] Hi.
        -- rewrite Z.add_0_r, E. eauto.
        -- specialize (H i ltac:(lia)).
           replace (to + Z.of_nat (S i)) with (to + 1 + Z.of_nat i) by lia.
           rewrite lookup_insert_ne in H by lia. done.
      * intros H i Hi. specialize (H (S i) ltac:(lia)).
        replace (to + Z.of_nat (S i)) with (to + 1 + Z.of_nat i) in H by lia.
        by rewrite lookup_insert_ne by lia.
    + split; [lia|]. intros H. specialize (H O ltac:(lia)).
      rewrite Z.add_0_r, E in H. by destruct H.
Qed.

Lemma copy_to_user_content (from : list byte) (to : Z) (m : gmap Z byte) :
  fst (copy_to_user to from m) = 0 ->
  forall (i : nat) (b : byte), from !! i = Some b ->
    snd (copy_to_user to from m) !! (to + Z.of_nat i) = Some b.
Proof.
  revert to m. induction from as [|b0 rest IH]; intros to m H0 i b Hi;
    simpl in *; [done|].
  destruct (m !! to) eqn:E; simpl in *.
  - destruct i as [|i]; simpl in Hi.
    + injection Hi as ->. rewrite Z.add_0_r.
      rewrite copy_to_user_outside by lia. apply lookup_insert_eq.
    + replace (to + Z.of_nat (S i)) with (to + 1 + Z.of_nat i) by lia.
      by apply IH.
  - lia.
Qed.

(** A complete copy of the payload stores "t", "e", "s", "t" at the four
    addresses from [to] on. *)
Lemma copy_to_user_test (to : Z) (m : gmap Z byte) :
  fst (copy_to_user to payload m) = 0 ->
  snd (copy_to_user to payload m) !! to = Some "t"%byte
  /\ snd (copy_to_user to payload m) !! (to + 1) = Some "e"%byte
  /\ snd (copy_to_user to payload m) !! (to + 2) = Some "s"%byte
  /\ snd (copy_to_user to payload m) !! (to + 3) = Some "t"%byte.
Proof.
  intros H. pose proof (copy_to_user_content payload to m H) as Hc.
  pose proof (Hc 0%nat "t"%byte eq_refl) as H0.
  pose proof (Hc 1%nat "e"%byte eq_refl) as H1.
  pose proof (Hc 2%nat "s"%byte eq_refl) as H2.
  pose proof (Hc 3%nat "t"%byte eq_refl) as H3.
  simpl in H0, H1, H2, H3. rewrite Z.add_0_r in H0. auto.
Qed.

(** ** One uninterrupted call of chardev_read *)

(** With the flag set the caller goes from line 59 to the copy and returns
    4 or -EFAULT. *)
Lemma chardev_read_flag_set (cur : nat) (f : file) (buf count off : Z) (s : kstate) :
  atomic_read s <> 0 ->
  chardev_read cur f buf count off s =
    (let '(uncopied, m) := copy_to_user buf payload (umem s) in
     if uncopied =? 0
     then (goto (Ret 4) (enter_read f buf count off),
           atomic_set 0 (set_umem m s))
     else (goto (Ret (- EFAULT)) (enter_read f buf count off), set_umem m s)).
Proof.
  intros Hc. unfold chardev_read, run_task.
  cbn [runnable read_step enter_read goto t_pc t_buf].
  destruct (atomic_read s =? 0) eqn:E; [apply Z.eqb_eq in E; done|].
  cbn [runnable read_step enter_read goto t_pc t_buf].
  destruct (copy_to_user buf payload (umem s)) as [uncopied m].
  destruct (uncopied =? 0); cbn [runnable read_step goto t_pc]; done.
Qed.

(** With the flag clear the caller returns -EAGAIN in non-blocking mode and
    goes to sleep on [queue] otherwise. *)
Lemma chardev_read_flag_clear (cur : nat) (f : file) (buf count off : Z) (s : kstate) :
  atomic_read s = 0 ->
  chardev_read cur f buf count off s =
    (if nonblocking f
     then (goto (Ret (- EAGAIN)) (enter_read f buf count off), s)
     else (goto Sched (enter_read f buf count off),
           set_queue (cur :: queue s) s)).
Proof.
  intros Hc. unfold chardev_read, run_task, nonblocking.
  cbn [runnable read_step enter_read goto t_pc t_filp t_sig].
  rewrite Hc. cbn [Z.eqb].
  cbn [runnable read_step enter_read goto t_pc t_filp t_sig].
  destruct (Z.land (f_flags f) O_NONBLOCK =? 0);
    cbn [negb runnable read_step goto t_pc t_sig enter_read]; [|done].
  rewrite Hc. cbn [Z.eqb].
  cbn [runnable goto t_pc queue set_queue on_queue existsb].
  by rewrite Nat.eqb_refl.
Qed.

(** C3.  A read in non-blocking mode that finds the readiness flag empty
    returns -EAGAIN without going to sleep, and leaves the flag, the wait
    queue, the timer, user memory and every other part of the device state
    as they were. *)
Theorem chardev_read_nonblocking_empty
  (cur : nat) (f : file) (buf count off : Z) (s : kstate) :
  counter s = 0 ->
  nonblocking f = true ->
  let '(t, s') := chardev_read cur f buf count off s in
  retval t = Some (- EAGAIN) /\ s' = s.
Proof.
  intros Hc Hf. rewrite chardev_read_flag_clear by done. by rewrite Hf.
Qed.

Lemma chardev_read_nonblocking_empty_witness :
  let '(t, s') :=
    chardev_read 0 Scenario.nonblocking_file 100 4 0
      (atomic_set 0 (ks Scenario.boot)) in
  retval t = Some (- EAGAIN) /\ s' = atomic_set 0 (ks Scenario.boot).
Proof.
  apply (chardev_read_nonblocking_empty 0 Scenario.nonblocking_file 100 4 0
           (atomic_set 0 (ks Scenario.boot))); reflexivity.
Defined.

(** C2, as amended.  A read that finds the readiness flag ready, in either
    mode, and whose copy to the caller's buffer succeeds, returns 4 without
    going to sleep; the four bytes at the caller's buffer are then "t",
    "e", "s", "t", no other byte of user memory has changed, and the flag
    is empty afterwards. *)
Theorem chardev_read_ready
  (cur : nat) (f : file) (buf count off : Z) (s : kstate) :
  counter s = 1 ->
  fst (copy_to_user buf payload (umem s)) = 0 ->
  let '(t, s') := chardev_read cur f buf count off s in
  retval t = Some 4
  /\ umem s' !! buf = Some "t"%byte
  /\ umem s' !! (buf + 1) = Some "e"%byte
  /\ umem s' !! (buf + 2) = Some "s"%byte
  /\ umem s' !! (buf + 3) = Some "t"%byte
  /\ (forall a : Z, a < buf \/ buf + 4 <= a -> umem s' !! a = umem s !! a)
  /\ queue s' = queue s
  /\ counter s' = 0.
Proof.
  intros Hc Hcopy.
  rewrite chardev_read_flag_set by (unfold atomic_read; lia).
  destruct (copy_to_user_test buf (umem s) Hcopy) as (Ht & He & Hs & Ht').
  pose proof (copy_to_user_outside payload buf (umem s)) as Hout.
  destruct (copy_to_user buf payload (umem s)) as [uncopied m].
  simpl in Hcopy. subst uncopied. simpl in *.
  repeat split; auto.
Qed.

Lemma chardev_read_ready_witness :
  let '(t, s') :=
    chardev_read 0 Scenario.blocking_file 100 4 0 (ks Scenario.boot) in
  retval t = Some 4
  /\ umem s' !! 100 = Some "t"%byte
  /\ umem s' !! (100 + 1) = Some "e"%byte
  /\ umem s' !! (100 + 2) = Some "s"%byte
  /\ umem s' !! (100 + 3) = Some "t"%byte
  /\ (forall a : Z, a < 100 \/ 100 + 4 <= a ->
        umem s' !! a = umem (ks Scenario.boot) !! a)
  /\ queue s' = queue (ks Scenario.boot)
  /\ counter s' = 0.
Proof.
  apply (chardev_read_ready 0 Scenario.blocking_file 100 4 0
           (ks Scenario.boot)); reflexivity.
Defined.

(** C2 as stated fails: the device has just started, the flag is ready,
    and a read into an unmapped buffer returns -EFAULT, not 4. *)
Lemma chardev_read_ready_unmapped_buffer :
  counter (ks Scenario.boot) = 1
  /\ retval (fst (chardev_read 0 Scenario.blocking_file 200 4 0
                    (ks Scenario.boot))) = Some (- EFAULT)
  /\ retval (fst (chardev_read 0 Scenario.blocking_file 200 4 0
                    (ks Scenario.boot))) <> Some 4.
Proof. split; [reflexivity|]. split; [reflexivity|]. vm_compute. discriminate. Qed.

(** C9.  When the copy to the caller's buffer fails, the read returns
    -EFAULT and the readiness flag stays ready; a following read whose copy
    succeeds returns 4. *)
Theorem chardev_read_fault_keeps_readiness
  (cur : nat) (f : file) (buf count off : Z) (s : kstate) :
  counter s = 1 ->
  fst (copy_to_user buf payload (umem s)) <> 0 ->
  let '(t, s') := chardev_read cur f buf count off s in
  retval t = Some (- EFAULT)
  /\ counter s' = 1
  /\ forall (cur' : nat) (f' : file) (buf' count' off' : Z),
       fst (copy_to_user buf' payload (umem s')) = 0 ->
       retval (fst (chardev_read cur' f' buf' count' off' s')) = Some 4.
Proof.
  intros Hc Hcopy.
  rewrite chardev_read_flag_set by (unfold atomic_read; lia).
  destruct (copy_to_user buf payload (umem s)) as [uncopied m] eqn:E.
  simpl in Hcopy. destruct (uncopied =? 0) eqn:E0; [apply Z.eqb_eq in E0; done|].
  split; [done|]. split; [done|].
  intros cur' f' buf' count' off' Hok.
  rewrite chardev_read_flag_set by (unfold atomic_read; simpl; lia).
  destruct (copy_to_user buf' payload (umem (set_umem m s))) as [u' m'].
  simpl in Hok. subst u'. done.
Qed.

Lemma chardev_read_fault_keeps_readiness_witness :
  let '(t, s') :=
    chardev_read 0 Scenario.blocking_file 105 4 0 (ks Scenario.boot) in
  retval t = Some (- EFAULT)
  /\ counter s' = 1
  /\ forall (cur' : nat) (f' : file) (buf' count' off' : Z),
       fst (copy_to_user buf' payload (umem s')) = 0 ->
       retval (fst (chardev_read cur' f' buf' count' off' s')) = Some 4.
Proof.
  apply (chardev_read_fault_keeps_readiness 0 Scenario.blocking_file 105 4 0
           (ks Scenario.boot)); [reflexivity | vm_compute; discriminate].
Defined.

(** No step of [chardev_read] looks at [count] or at the offset, and none
    stores to the offset. *)
Lemma read_step_keeps_arguments (cur : nat) (t : task) (s : kstate) :
  let t' := fst (read_step cur t s) in
  t_filp t' = t_filp t /\ t_buf t' = t_buf t /\ t_count t' = t_count t
  /\ t_offp t' = t_offp t /\ t_sig t' = t_sig t.
Proof.
  destruct t as [fl bf ct offs pc sg]. unfold read_step.
  destruct pc; cbn [t_pc t_buf t_filp t_sig];
    repeat match goal with
           | |- context [if ?c then _ else _] => destruct c
           | |- context [copy_to_user ?a ?b ?c] => destruct (copy_to_user a b c)
           end; simpl; auto.
Qed.

(** C10.  A read that returns a byte count returns 4 whatever [count] and
    the offset are: the four bytes at the caller's buffer are then "t",
    "e", "s", "t", no other byte of user memory has changed, the offset is
    the one passed in, and the same call with any other [count] and offset
    has the same result and leaves the offset it was given. *)
Theorem chardev_read_ignores_count_and_offset
  (cur : nat) (f : file) (buf count off : Z) (s : kstate)
  (t : task) (s' : kstate) (r : Z) :
  chardev_read cur f buf count off s = (t, s') ->
  retval t = Some r ->
  0 <= r ->
  r = 4
  /\ umem s' !! buf = Some "t"%byte
  /\ umem s' !! (buf + 1) = Some "e"%byte
  /\ umem s' !! (buf + 2) = Some "s"%byte
  /\ umem s' !! (buf + 3) = Some "t"%byte
  /\ (forall a : Z, a < buf \/ buf + 4 <= a -> umem s' !! a = umem s !! a)
  /\ t_offp t = off
  /\ forall count' off' : Z,
       exists t' : task,
         chardev_read cur f buf count' off' s = (t', s')
         /\ retval t' = Some 4 /\ t_offp t' = off'.
Proof.
  intros Hrun Hret Hr.
  destruct (decide (atomic_read s = 0)) as [H0|H1].
  - rewrite chardev_read_flag_clear in Hrun by done.
    destruct (nonblocking f); injection Hrun as <- <-; simpl in Hret;
      [injection Hret as <-; unfold EAGAIN in Hr; lia | discriminate].
  - pose proof (chardev_read_flag_set cur f buf) as Hset.
    rewrite Hset in Hrun by done.
    pose proof (copy_to_user_test buf (umem s)) as Htest.
    pose proof (copy_to_user_outside payload buf (umem s)) as Hout.
    destruct (copy_to_user buf payload (umem s)) as [uncopied m] eqn:Ecopy.
    destruct (uncopied =? 0) eqn:E0; injection Hrun as <- <-; simpl in Hret;
      injection Hret as <-; [|unfold EFAULT in Hr; lia].
    apply Z.eqb_eq in E0. subst uncopied. simpl in *.
    destruct (Htest eq_refl) as (Ht & He & Hs & Ht').
    repeat split; auto.
    intros count' off'. rewrite Hset by done. rewrite Ecopy. simpl. eauto.
Qed.

Lemma chardev_read_ignores_count_and_offset_witness :
  4 = 4
  /\ umem (snd (chardev_read 0 Scenario.blocking_file 100 1 7
                  (ks Scenario.boot))) !! 100 = Some "t"%byte
  /\ umem (snd (chardev_read 0 Scenario.blocking_file 100 1 7
                  (ks Scenario.boot))) !! (100 + 1) = Some "e"%byte
  /\ umem (snd (chardev_read 0 Scenario.blocking_file 100 1 7
                  (ks Scenario.boot))) !! (100 + 2) = Some "s"%byte
  /\ umem (snd (chardev_read 0 Scenario.blocking_file 100 1 7
                  (ks Scenario.boot))) !! (100 + 3) = Some "t"%byte
  /\ (forall a : Z, a < 100 \/ 100 + 4 <= a ->
        umem (snd (chardev_read 0 Scenario.blocking_file 100 1 7
                     (ks Scenario.boot))) !! a
        = umem (ks Scenario.boot) !! a)
  /\ t_offp (fst (chardev_read 0 Scenario.blocking_file 100 1 7
                    (ks Scenario.boot))) = 7
  /\ forall count' off' : Z,
       exists t' : task,
         chardev_read 0 Scenario.blocking_file 100 count' off'
           (ks Scenario.boot)
         = (t', snd (chardev_read 0 Scenario.blocking_file 100 1 7
                       (ks Scenario.boot)))
         /\ retval t' = Some 4 /\ t_offp t' = off'.
Proof.
  assert (H4 : retval (fst (chardev_read 0 Scenario.blocking_file 100 1 7
                              (ks Scenario.boot))) = Some 4)
    by (vm_compute; reflexivity).
  exact (chardev_read_ignores_count_and_offset 0 Scenario.blocking_file
           100 1 7 (ks Scenario.boot) _ _ 4
           (surjective_pairing _) H4 ltac:(lia)).
Defined.

(** ** write and ioctl *)

(** C8.  Every write returns -EPERM, whatever the session's flags, the
    arguments and the device state; the state, user memory included, and
    the offset are unchanged: no byte is accepted. *)
Theorem chardev_write_not_permitted
  (f : file) (buf count off : Z) (s : kstate) :
  chardev_write f buf count off s = (- EPERM, off, s)
  /\ fst (fst (chardev_write f buf count off s)) < 0.
Proof. split; [reflexivity | unfold chardev_write, EPERM; simpl; lia]. Qed.

(** C7.  Every ioctl command returns -ENOTTY and leaves the device state
    unchanged; so does the PROCESS_ID request of the companion process,
    whatever the command number and the process id: nothing is
    registered. *)
Theorem chardev_ioctl_not_supported
  (f : file) (cmd arg : Z) (s : kstate) :
  chardev_ioctl f cmd arg s = (- ENOTTY, s)
  /\ forall PROCESS_ID pid : Z,
       client_register PROCESS_ID f pid s = (- ENOTTY, s)
       /\ fst (client_register PROCESS_ID f pid s) < 0.
Proof.
  split; [reflexivity|]. intros PROCESS_ID pid.
  split; [reflexivity | unfold client_register, chardev_ioctl, ENOTTY; simpl; lia].
Qed.

(** ** The timer *)

Lemma timer_func_effect (HZ data0 : Z) (s : kstate) :
  timer_func HZ data0 s =
    {| chardev_major := chardev_major s; chardev_class := chardev_class s;
       read_timer := {| expires := ulong (jiffies s
                                          + int_wrap (HZ * 5));
                        data := data (read_timer s);
                        function := function (read_timer s);
                        pending := true |};
       counter := 1; queue := []; d := d s; jiffies := jiffies s;
       umem := umem s;
     timer_running := timer_running s |}.
Proof. reflexivity. Qed.


Lemma int_wrap_in_range (z : Z) : 0 <= z <= INT_MAX -> int_wrap z = z.
Proof.
  unfold int_wrap, INT_MAX. intros Hz.
  change (2 ^ 31) with 2147483648. change (2 ^ 32) with 4294967296.
  rewrite Z.mod_small by lia. lia.
Qed.

(** [timer_func] run line by line without interruption is [fire]. *)
Lemma fire_line_by_line (HZ : Z) (w w' : world) :
  exec HZ EvFire w = Some w' ->
  run HZ [EvExpire; EvTimer; EvTimer; EvTimer; EvTimer] w = Some w'.
Proof.
  unfold run, exec, fire, expire. intros H.
  destruct (timer_running (ks w)) eqn:Hrun; [discriminate|].
  destruct (pending (read_timer (ks w))
            && time_after_eq (jiffies (ks w)) (expires (read_timer (ks w))));
    [|discriminate].
  injection H as <-. cbn [ks tasks]. unfold timer_step.
  cbn [timer_running set_running]. cbn [ks tasks]. unfold timer_step.
  cbn [timer_running set_running]. cbn [ks tasks]. unfold timer_step.
  cbn [timer_running set_running read_timer set_timer pending del_timer
       set_expires atomic_set].
  cbn [ks tasks]. unfold timer_step. cbn [timer_running set_running].
  rewrite timer_func_effect. cbn [timer_running set_timer]. rewrite Hrun.
  reflexivity.
Qed.

(** C5.  Whenever the timer fires, whoever is or is not reading: the
    readiness flag is ready afterwards, every reader asleep on the wait
    queue is runnable again, and the timer is pending again with its
    expiry at the current time plus the [int] product HZ * 5, which is one
    period of 5*HZ jiffies later when that product is in the range of
    [int].  Run line by line without interruption, the call has the same
    result. *)
Theorem timer_fire_marks_ready_and_rearms (HZ : Z) (w w' : world) :
  exec HZ EvFire w = Some w' ->
  counter (ks w') = 1
  /\ tasks w' = tasks w
  /\ (forall (cur : nat) (t : task),
        tasks w' !! cur = Some t -> t_pc t = Sched ->
        runnable cur t (ks w') = true)
  /\ pending (read_timer (ks w')) = true
  /\ expires (read_timer (ks w'))
     = ulong (jiffies (ks w) + int_wrap (HZ * 5))
  /\ (0 <= HZ * 5 <= INT_MAX ->
      expires (read_timer (ks w')) = ulong (jiffies (ks w) + HZ * 5))
  /\ jiffies (ks w') = jiffies (ks w)
  /\ run HZ [EvExpire; EvTimer; EvTimer; EvTimer; EvTimer] w = Some w'.
Proof.
  intros H. pose proof (fire_line_by_line HZ w w' H) as Hlines.
  unfold exec, fire in H.
  destruct (timer_running (ks w)); [discriminate|].
  destruct (pending (read_timer (ks w))
            && time_after_eq (jiffies (ks w)) (expires (read_timer (ks w))));
    [|discriminate].
  injection H as <-. rewrite timer_func_effect. simpl.
  repeat split; auto.
  - intros cur t _ Hpc. unfold runnable. by rewrite Hpc.
  - intros Hint. by rewrite int_wrap_in_range.
Qed.

Lemma timer_fire_marks_ready_and_rearms_witness :
  exec Scenario.HZ EvFire Scenario.due = Some Scenario.refired
  /\ counter (ks Scenario.refired) = 1
  /\ tasks Scenario.refired = tasks Scenario.due
  /\ (forall (cur : nat) (t : task),
        tasks Scenario.refired !! cur = Some t -> t_pc t = Sched ->
        runnable cur t (ks Scenario.refired) = true)
  /\ pending (read_timer (ks Scenario.refired)) = true
  /\ expires (read_timer (ks Scenario.refired))
     = ulong (jiffies (ks Scenario.due) + int_wrap (Scenario.HZ * 5))
  /\ (0 <= Scenario.HZ * 5 <= INT_MAX ->
      expires (read_timer (ks Scenario.refired))
      = ulong (jiffies (ks Scenario.due) + Scenario.HZ * 5))
  /\ jiffies (ks Scenario.refired) = jiffies (ks Scenario.due)
  /\ run Scenario.HZ [EvExpire; EvTimer; EvTimer; EvTimer; EvTimer]
       Scenario.due = Some Scenario.refired.
Proof.
  assert (H : exec Scenario.HZ EvFire Scenario.due = Some Scenario.refired)
    by (vm_compute; reflexivity).
  exact (conj H (timer_fire_marks_ready_and_rearms
                   Scenario.HZ Scenario.due Scenario.refired H)).
Defined.

(** ** Steps of the device *)

Lemma chardev_init_started (HZ : Z) (e : init_env) (s s' : kstate) (ret : Z) :
  chardev_init HZ e s = (ret, s') ->
  0 <= ret ->
  ret = 0 /\ counter s' = 1 /\ queue s' = queue s /\ umem s' = umem s
  /\ jiffies s' = jiffies s
  /\ pending (read_timer s') = true
  /\ expires (read_timer s') = ulong (jiffies s + int_wrap (HZ * 5)).
Proof.
  unfold chardev_init, ENOMEM. intros H Hret.
  destruct (kmalloc_ret e) as [c|]; [|injection H as <- <-; lia].
  cbn [chardev_major set_d] in H.
  destruct (chardev_major s >? 0);
  destruct (chrdev_region_ret e <? 0) eqn:E1.
  all: try (apply Z.ltb_lt in E1; injection H as <- <-; lia).
  all: cbn [chardev_class set_class] in H.
  all: destruct (IS_ERR (class_create_ret e)); [injection H as <- <-; lia|].
  all: cbn [device set_device] in H.
  all: destruct (IS_ERR (device_create_ret e)); [injection H as <- <-; lia|].
  all: destruct (cdev_add_ret e <? 0) eqn:E2;
    [apply Z.ltb_lt in E2; injection H as <- <-; lia|].
  all: injection H as <- <-; simpl; auto 10.
Qed.

(** [chardev_init] does not run the timer function. *)
Lemma chardev_init_running (HZ : Z) (e : init_env) (s s' : kstate) (ret : Z) :
  chardev_init HZ e s = (ret, s') -> timer_running s' = timer_running s.
Proof.
  unfold chardev_init. intros H.
  destruct (kmalloc_ret e) as [c|]; [|by injection H as <- <-].
  cbn [chardev_major set_d] in H.
  destruct (chardev_major s >? 0); destruct (chrdev_region_ret e <? 0);
    try (by injection H as <- <-).
  all: cbn [chardev_class set_class] in H.
  all: destruct (IS_ERR (class_create_ret e)); [by injection H as <- <-|].
  all: cbn [device set_device] in H.
  all: destruct (IS_ERR (device_create_ret e)); [by injection H as <- <-|].
  all: destruct (cdev_add_ret e <? 0); by injection H as <- <-.
Qed.

Lemma insmod_started (HZ : Z) (e : init_env) (j : Z) (m : gmap Z byte) (w0 : world) :
  insmod HZ e j m = Some w0 ->
  counter (ks w0) = 1 /\ queue (ks w0) = [] /\ tasks w0 = []
  /\ umem (ks w0) = m /\ jiffies (ks w0) = j
  /\ pending (read_timer (ks w0)) = true
  /\ expires (read_timer (ks w0)) = ulong (j + int_wrap (HZ * 5)).
Proof.
  unfold insmod. destruct (chardev_init HZ e (module_image j m)) as [ret s] eqn:E.
  destruct (ret <? 0) eqn:Hret; [discriminate|]. apply Z.ltb_ge in Hret.
  intros [= <-]. simpl.
  destruct (chardev_init_started HZ e _ _ _ E Hret) as (_ & ? & ? & ? & ? & ? & ?).
  auto 10.
Qed.

Lemma insmod_running (HZ : Z) (e : init_env) (j : Z) (m : gmap Z byte) (w0 : world) :
  insmod HZ e j m = Some w0 -> timer_running (ks w0) = None.
Proof.
  unfold insmod. destruct (chardev_init HZ e (module_image j m)) as [ret s] eqn:E.
  destruct (ret <? 0); [discriminate|]. intros [= <-]. simpl.
  by rewrite (chardev_init_running _ _ _ _ _ E).
Qed.

Lemma chardev_exit_effect (s s' : kstate) :
  chardev_exit s = Some s' ->
  counter s' = counter s /\ queue s' = queue s /\ umem s' = umem s
  /\ jiffies s' = jiffies s /\ pending (read_timer s') = false.
Proof.
  unfold chardev_exit. cbn [d set_timer].
  destruct (d s) as [c|]; [|discriminate]. intros [= <-].
  cbn [chardev_class set_d].
  destruct (negb (IS_ERR (device c)) && negb (is_null (device c)));
    destruct (negb (IS_ERR (chardev_class s)) && negb (is_null (chardev_class s)));
    simpl; auto.
Qed.

(** [chardev_exit] does not wait for a call of [timer_func] in progress:
    the call stands where it stood. *)
Lemma chardev_exit_running (s s' : kstate) :
  chardev_exit s = Some s' -> timer_running s' = timer_running s.
Proof.
  unfold chardev_exit. cbn [d set_timer].
  destruct (d s) as [c|]; [|discriminate]. intros [= <-].
  cbn [chardev_class set_d].
  destruct (negb (IS_ERR (device c)) && negb (is_null (device c)));
    destruct (negb (IS_ERR (chardev_class s)) && negb (is_null (chardev_class s)));
    reflexivity.
Qed.

Lemma exec_exit_inv (HZ : Z) (w w' : world) :
  exec HZ EvExit w = Some w' ->
  exists s' : kstate,
    forallb returned (tasks w) = true
    /\ chardev_exit (ks w) = Some s'
    /\ w' = {| ks := s'; tasks := tasks w |}.
Proof.
  unfold exec. destruct (forallb returned (tasks w)); [|discriminate].
  destruct (chardev_exit (ks w)) as [s'|]; [|discriminate].
  intros [= <-]. eauto.
Qed.

Lemma exec_fire_inv (HZ : Z) (w w' : world) :
  exec HZ EvFire w = Some w' ->
  timer_running (ks w) = None
  /\ pending (read_timer (ks w)) = true
  /\ time_after_eq (jiffies (ks w)) (expires (read_timer (ks w))) = true
  /\ w' = {| ks := timer_func HZ (data (read_timer (ks w)))
                     (set_timer (del_timer (read_timer (ks w))) (ks w));
             tasks := tasks w |}.
Proof.
  unfold exec, fire. destruct (timer_running (ks w)); [discriminate|].
  destruct (pending (read_timer (ks w))); [|discriminate]. cbn [andb].
  destruct (time_after_eq (jiffies (ks w)) (expires (read_timer (ks w))));
    [|discriminate].
  by intros [= <-].
Qed.

Lemma exec_expire_inv (HZ : Z) (w w' : world) :
  exec HZ EvExpire w = Some w' ->
  timer_running (ks w) = None
  /\ pending (read_timer (ks w)) = true
  /\ time_after_eq (jiffies (ks w)) (expires (read_timer (ks w))) = true
  /\ w' = {| ks := set_running (Some T48)
                     (set_timer (del_timer (read_timer (ks w))) (ks w));
             tasks := tasks w |}.
Proof.
  unfold exec, expire. destruct (timer_running (ks w)); [discriminate|].
  destruct (pending (read_timer (ks w))); [|discriminate]. cbn [andb].
  destruct (time_after_eq (jiffies (ks w)) (expires (read_timer (ks w))));
    [|discriminate].
  by intros [= <-].
Qed.

(** The lines of [timer_func]. *)
Lemma exec_timer_inv (HZ : Z) (w w' : world) :
  exec HZ EvTimer w = Some w' ->
  tasks w' = tasks w
  /\ ((timer_running (ks w) = Some T48
       /\ ks w' = set_running (Some T49) (atomic_set 1 (ks w)))
      \/ (timer_running (ks w) = Some T49
          /\ ks w' = set_running (Some T50)
                       (set_timer
                          (set_expires
                             (ulong (jiffies (ks w) + int_wrap (HZ * 5)))
                             (read_timer (ks w))) (ks w)))
      \/ (timer_running (ks w) = Some T50
          /\ pending (read_timer (ks w)) = false
          /\ ks w' = set_running (Some T51)
                       (set_timer (add_timer (read_timer (ks w))) (ks w)))
      \/ (timer_running (ks w) = Some T51
          /\ ks w' = set_running None (wake_up_interruptible (ks w)))).
Proof.
  unfold exec, timer_step.
  destruct (timer_running (ks w)) as [[| | |]|]; try discriminate.
  - intros [= <-]. auto.
  - intros [= <-]. auto.
  - destruct (pending (read_timer (ks w))); [discriminate|].
    intros [= <-]. auto 10.
  - intros [= <-]. auto 10.
Qed.

Lemma exec_step_inv (HZ : Z) (cur : nat) (w w' : world) :
  exec HZ (EvStep cur) w = Some w' ->
  exists (t t' : task) (s' : kstate),
    tasks w !! cur = Some t /\ runnable cur t (ks w) = true
    /\ read_step cur t (ks w) = (t', s')
    /\ w' = {| ks := s'; tasks := <[cur := t']> (tasks w) |}.
Proof.
  unfold exec. destruct (tasks w !! cur) as [t|]; [|discriminate].
  destruct (runnable cur t (ks w)) eqn:Hr; [|discriminate].
  destruct (read_step cur t (ks w)) as [t' s'] eqn:Hs.
  intros [= <-]. eauto 10.
Qed.

Ltac pick_case :=
  solve [ left; repeat split; solve [done | eauto]
        | right; pick_case
        | eexists; repeat split; solve [done | eauto] ].

(** The cases of one step of [chardev_read]. *)
Lemma read_step_cases (cur : nat) (t t' : task) (s s' : kstate) :
  read_step cur t s = (t', s') ->
  (t_pc t = L59 /\ counter s = 0 /\ t' = goto L60 t /\ s' = s)
  \/ (t_pc t = L59 /\ counter s <> 0 /\ t' = goto L67 t /\ s' = s)
  \/ (t_pc t = L60 /\ nonblocking (t_filp t) = false
      /\ t' = goto L63 t /\ s' = s)
  \/ (t_pc t = L60 /\ nonblocking (t_filp t) = true
      /\ t' = goto (Ret (- EAGAIN)) t /\ s' = s)
  \/ (t_pc t = L63 /\ (counter s = 1 \/ t_sig t = true)
      /\ t' = goto L59 t /\ s' = s)
  \/ (t_pc t = L63 /\ counter s <> 1 /\ t_sig t = false
      /\ t' = goto Sched t /\ s' = set_queue (cur :: queue s) s)
  \/ (t_pc t = Sched /\ t' = goto L63 t /\ s' = s)
  \/ (t_pc t = L67 /\ fst (copy_to_user (t_buf t) payload (umem s)) = 0
      /\ t' = goto L70 t
      /\ s' = set_umem (snd (copy_to_user (t_buf t) payload (umem s))) s)
  \/ (t_pc t = L67 /\ fst (copy_to_user (t_buf t) payload (umem s)) <> 0
      /\ t' = goto (Ret (- EFAULT)) t
      /\ s' = set_umem (snd (copy_to_user (t_buf t) payload (umem s))) s)
  \/ (t_pc t = L70 /\ t' = goto (Ret 4) t /\ s' = atomic_set 0 s)
  \/ (exists r : Z, t_pc t = Ret r /\ t' = t /\ s' = s).
Proof.
  unfold read_step, nonblocking, atomic_read. destruct (t_pc t) eqn:Hpc.
  - destruct (counter s =? 0) eqn:E; intros [= <- <-];
      [apply Z.eqb_eq in E | apply Z.eqb_neq in E]; pick_case.
  - destruct (Z.land (f_flags (t_filp t)) O_NONBLOCK =? 0); intros [= <- <-];
      simpl; pick_case.
  - destruct (counter s =? 1) eqn:E;
      [apply Z.eqb_eq in E; intros [= <- <-]; pick_case|].
    apply Z.eqb_neq in E.
    destruct (t_sig t) eqn:Hsig; intros [= <- <-]; pick_case.
  - intros [= <- <-]. pick_case.
  - destruct (copy_to_user (t_buf t) payload (umem s)) as [uncopied m].
    destruct (uncopied =? 0) eqn:E; intros [= <- <-]; simpl;
      [apply Z.eqb_eq in E | apply Z.eqb_neq in E]; pick_case.
  - intros [= <- <-]. pick_case.
  - intros [= <- <-]. pick_case.
Qed.

(** ** The invariant *)

Lemma read_step_preserves_inv (cur : nat) (t t' : task) (s s' : kstate) :
  read_step cur t s = (t', s') ->
  flag_ok s -> waits_only_if_blocking t ->
  flag_ok s' /\ waits_only_if_blocking t'.
Proof.
  unfold flag_ok, waits_only_if_blocking. intros Hs Hf Ht.
  destruct (read_step_cases _ _ _ _ _ Hs) as
    [H|[H|[H|[H|[H|[H|[H|[H|[H|[H|H]]]]]]]]]];
    [destruct H as (Hpc & ? & -> & ->) | destruct H as (Hpc & ? & -> & ->)
    |destruct H as (Hpc & ? & -> & ->) | destruct H as (Hpc & ? & -> & ->)
    |destruct H as (Hpc & ? & -> & ->) | destruct H as (Hpc & ? & ? & -> & ->)
    |destruct H as (Hpc & -> & ->) | destruct H as (Hpc & ? & -> & ->)
    |destruct H as (Hpc & ? & -> & ->) | destruct H as (Hpc & -> & ->)
    |destruct H as (r & Hpc & -> & ->)];
    simpl; (split; [auto|]); auto; try (intros [?|?]; discriminate).
  all: intros _; apply Ht; rewrite Hpc; auto.
Qed.

Lemma exec_preserves_inv (HZ : Z) (e : event) (w w' : world) :
  inv w -> exec HZ e w = Some w' -> inv w'.
Proof.
  unfold inv. intros (Hf & Ht) He. destruct e.
  - injection He as <-. done.
  - apply exec_fire_inv in He as (_ & _ & _ & ->).
    rewrite timer_func_effect. unfold flag_ok. simpl. auto.
  - apply exec_expire_inv in He as (_ & _ & _ & ->). done.
  - apply exec_timer_inv in He as (Hts & Hk). rewrite Hts.
    split; [|done]. unfold flag_ok in *.
    destruct Hk as [(_ & ->)|[(_ & ->)|[(_ & _ & ->)|(_ & ->)]]]; simpl; auto.
  - injection He as <-. simpl. split; [done|].
    apply Forall_app. split; [done|]. apply Forall_singleton.
    intros [?|?]; discriminate.
  - apply exec_step_inv in He as (t & t' & s' & Hl & _ & Hs & ->). simpl.
    assert (Hwt : waits_only_if_blocking t)
      by (eapply Forall_lookup_1; eauto).
    destruct (read_step_preserves_inv _ _ _ _ _ Hs Hf Hwt) as (? & ?).
    split; [done|]. by apply Forall_insert.
  - simpl in He. destruct (tasks w !! cur) as [t|] eqn:Hl; [|discriminate].
    destruct (returned t); [discriminate|]. injection He as <-. simpl.
    split; [done|]. apply Forall_insert; [done|].
    exact (Forall_lookup_1 _ _ _ _ Ht Hl).
  - apply exec_exit_inv in He as (s' & _ & Hx & ->). simpl.
    destruct (chardev_exit_effect _ _ Hx) as (Hc & _).
    unfold flag_ok. rewrite Hc. auto.
Qed.

Lemma run_preserves_inv (HZ : Z) (sched : list event) (w w' : world) :
  inv w -> run HZ sched w = Some w' -> inv w'.
Proof.
  revert w. induction sched as [|e rest IH]; intros w Hinv Hrun; simpl in Hrun.
  - by injection Hrun as <-.
  - destruct (exec HZ e w) as [w1|] eqn:He; [|discriminate].
    eauto using exec_preserves_inv.
Qed.

Lemma insmod_inv (HZ : Z) (e : init_env) (j : Z) (m : gmap Z byte) (w0 : world) :
  insmod HZ e j m = Some w0 -> inv w0.
Proof.
  intros H. apply insmod_started in H as (Hc & Hq & Ht & _).
  unfold inv, flag_ok. rewrite Hc, Ht. auto.
Qed.

(** Every change of the flag is made by the timer function, which finds it
    empty (the whole call, or its line 48), or by the last step of a read
    that returns 4 and finds it ready. *)
Lemma exec_flag_transition (HZ : Z) (e : event) (w w' : world) :
  flag_ok (ks w) ->
  exec HZ e w = Some w' ->
  counter (ks w') <> counter (ks w) ->
  ((e = EvFire \/ (e = EvTimer /\ timer_running (ks w) = Some T48))
   /\ counter (ks w) = 0 /\ counter (ks w') = 1)
  \/ (exists (cur : nat) (t t' : task),
        e = EvStep cur /\ tasks w !! cur = Some t /\ t_pc t = L70
        /\ tasks w' !! cur = Some t' /\ retval t' = Some 4
        /\ counter (ks w) = 1 /\ counter (ks w') = 0).
Proof.
  unfold flag_ok. intros Hf He Hne. destruct e.
  - injection He as <-. simpl in Hne. done.
  - left. apply exec_fire_inv in He as (_ & _ & _ & ->).
    rewrite timer_func_effect in *. simpl in *.
    repeat split; auto. lia.
  - apply exec_expire_inv in He as (_ & _ & _ & ->). simpl in Hne. done.
  - left. apply exec_timer_inv in He as (_ & Hk).
    destruct Hk as [(Hr & Hk)|[(_ & Hk)|[(_ & _ & Hk)|(_ & Hk)]]];
      rewrite Hk in *; simpl in *; try done.
    repeat split; auto. lia.
  - injection He as <-. simpl in Hne. done.
  - right. apply exec_step_inv in He as (t & t' & s' & Hl & _ & Hs & ->).
    simpl in *.
    destruct (read_step_cases _ _ _ _ _ Hs) as
      [H|[H|[H|[H|[H|[H|[H|[H|[H|[H|H]]]]]]]]]];
      [destruct H as (Hpc & ? & -> & ->) | destruct H as (Hpc & ? & -> & ->)
      |destruct H as (Hpc & ? & -> & ->) | destruct H as (Hpc & ? & -> & ->)
      |destruct H as (Hpc & ? & -> & ->) | destruct H as (Hpc & ? & ? & -> & ->)
      |destruct H as (Hpc & -> & ->) | destruct H as (Hpc & ? & -> & ->)
      |destruct H as (Hpc & ? & -> & ->) | destruct H as (Hpc & -> & ->)
      |destruct H as (r & Hpc & -> & ->)];
      simpl in Hne; try done.
    exists cur, t, (goto (Ret 4) t). simpl.
    repeat split; auto; [|lia].
    apply list_lookup_insert_eq. by eapply lookup_lt_Some.
  - simpl in He. destruct (tasks w !! cur) as [t|]; [|discriminate].
    destruct (returned t); [discriminate|]. injection He as <-. done.
  - apply exec_exit_inv in He as (s' & _ & Hx & ->). simpl in Hne.
    by destruct (chardev_exit_effect _ _ Hx) as (Hc & _).
Qed.

(** C6.  From device start on, the readiness flag is 0 (empty) or 1
    (ready); it is ready when the device has started; and a step changes
    it only from empty to ready, when the timer fires (the assignment of
    line 48, in a whole call of the timer function or in one run line by
    line), or from ready to empty, as the last action of a read that
    returns 4. *)
Theorem readiness_flag_protocol
  (HZ : Z) (e0 : init_env) (j : Z) (m : gmap Z byte) (w0 : world)
  (sched : list event) (w : world) :
  insmod HZ e0 j m = Some w0 ->
  run HZ sched w0 = Some w ->
  counter (ks w0) = 1
  /\ (counter (ks w) = 0 \/ counter (ks w) = 1)
  /\ forall (e : event) (w' : world),
       exec HZ e w = Some w' ->
       counter (ks w') <> counter (ks w) ->
       ((e = EvFire \/ (e = EvTimer /\ timer_running (ks w) = Some T48))
        /\ counter (ks w) = 0 /\ counter (ks w') = 1)
       \/ (exists (cur : nat) (t t' : task),
             e = EvStep cur /\ tasks w !! cur = Some t /\ t_pc t = L70
             /\ tasks w' !! cur = Some t' /\ retval t' = Some 4
             /\ counter (ks w) = 1 /\ counter (ks w') = 0).
Proof.
  intros Hboot Hrun.
  pose proof (insmod_inv _ _ _ _ _ Hboot) as Hinv0.
  pose proof (run_preserves_inv _ _ _ _ Hinv0 Hrun) as (Hf & _).
  split; [by apply insmod_started in Hboot as (? & _)|].
  split; [exact Hf|].
  intros e w'. by apply exec_flag_transition.
Qed.

Lemma readiness_flag_protocol_witness :
  counter (ks Scenario.boot) = 1
  /\ (counter (ks Scenario.raced) = 0 \/ counter (ks Scenario.raced) = 1)
  /\ forall (e : event) (w' : world),
       exec Scenario.HZ e Scenario.raced = Some w' ->
       counter (ks w') <> counter (ks Scenario.raced) ->
       ((e = EvFire
         \/ (e = EvTimer /\ timer_running (ks Scenario.raced) = Some T48))
        /\ counter (ks Scenario.raced) = 0 /\ counter (ks w') = 1)
       \/ (exists (cur : nat) (t t' : task),
             e = EvStep cur /\ tasks Scenario.raced !! cur = Some t
             /\ t_pc t = L70
             /\ tasks w' !! cur = Some t' /\ retval t' = Some 4
             /\ counter (ks Scenario.raced) = 1 /\ counter (ks w') = 0).
Proof.
  assert (H0 : insmod Scenario.HZ Scenario.env_ok 1000 Scenario.mem8
               = Some Scenario.boot) by (vm_compute; reflexivity).
  assert (H1 : run Scenario.HZ Scenario.race Scenario.boot
               = Some Scenario.raced) by (vm_compute; reflexivity).
  exact (readiness_flag_protocol Scenario.HZ Scenario.env_ok 1000
           Scenario.mem8 Scenario.boot Scenario.race Scenario.raced H0 H1).
Defined.

(** ** Counting reads *)






Lemma fires_cons (e : event) (rest : list event) :
  fires (e :: rest) = (fires [e] + fires rest)%nat.
Proof. by destruct e. Qed.






(** ** Unloading the module *)

(** C4.  The implementation does not stop the producer for good.  On the
    machine of [Scenario], task 0 takes the initial readiness and returns;
    one period later the timer expires and its function is started; the
    module is then unloaded (no read is in progress) before the function
    has run line 48.  Right after [chardev_exit] the flag is empty and the
    timer is not pending; but the function runs on: afterwards the
    readiness flag is set (a readiness event after teardown), the timer is
    pending again, and one period later it fires again. *)
Theorem del_timer_misses_running_callback :
  insmod Scenario.HZ Scenario.env_ok 1000 Scenario.mem8 = Some Scenario.boot
  /\ run Scenario.HZ Scenario.unload_race Scenario.boot = Some Scenario.torn
  /\ last Scenario.unload_race = Some EvExit
  /\ idle Scenario.torn = true
  /\ counter (ks Scenario.torn) = 0
  /\ pending (read_timer (ks Scenario.torn)) = false
  /\ run Scenario.HZ [EvTimer; EvTimer; EvTimer; EvTimer] Scenario.torn
     = Some Scenario.unloaded
  /\ counter (ks Scenario.unloaded) = 1
  /\ pending (read_timer (ks Scenario.unloaded)) = true
  /\ is_Some (run Scenario.HZ (repeat EvTick 500 ++ [EvFire])
                Scenario.unloaded).
Proof.
  repeat (split; [vm_compute; reflexivity|]).
  vm_compute. eauto.
Qed.

(** * Further properties of the driver *)

(** ** Loading and unloading *)

(** X1.  When [chardev_init] fails it returns a negative error code, the
    structure [d] is freed, and the readiness flag, the timer, the wait
    queue, the clock and user memory are as before the call: the timer is
    not armed and the flag is not set. *)
Theorem chardev_init_failure_leaves_protocol_untouched
  (HZ : Z) (e : init_env) (s s' : kstate) (ret : Z) :
  chardev_init HZ e s = (ret, s') ->
  ret <> 0 ->
  ret < 0 /\ d s' = None
  /\ counter s' = counter s /\ read_timer s' = read_timer s
  /\ queue s' = queue s /\ umem s' = umem s /\ jiffies s' = jiffies s.
Proof.
  unfold chardev_init, ENOMEM. intros H Hret.
  destruct (kmalloc_ret e) as [c|];
    [|injection H as <- <-; simpl; repeat split; auto; lia].
  cbn [chardev_major set_d] in H.
  destruct (chardev_major s >? 0);
    destruct (chrdev_region_ret e <? 0) eqn:E1.
  all: try (apply Z.ltb_lt in E1; injection H as <- <-; simpl;
            repeat split; auto; lia).
  all: cbn [chardev_class set_class] in H.
  all: destruct (IS_ERR (class_create_ret e));
    [injection H as <- <-; simpl; repeat split; auto; lia|].
  all: cbn [device set_device] in H.
  all: destruct (IS_ERR (device_create_ret e));
    [injection H as <- <-; simpl; repeat split; auto; lia|].
  all: destruct (cdev_add_ret e <? 0) eqn:E2;
    [apply Z.ltb_lt in E2; injection H as <- <-; simpl;
     repeat split; auto; lia|].
  all: injection H as <- <-; done.
Qed.

Lemma chardev_init_failure_leaves_protocol_untouched_witness :
  let e := {| kmalloc_ret := Some {| minor := 3; status := 7; device := PObj |};
              chrdev_region_ret := 0; alloc_major := 250;
              class_create_ret := PObj; device_create_ret := PErr (-12);
              cdev_add_ret := 0 |} in
  let s := module_image 1000 Scenario.mem8 in
  let s' := snd (chardev_init Scenario.HZ e s) in
  - ENOMEM < 0 /\ d s' = None
  /\ counter s' = counter s /\ read_timer s' = read_timer s
  /\ queue s' = queue s /\ umem s' = umem s /\ jiffies s' = jiffies s.
Proof.
  intros e s s'.
  assert (H : chardev_init Scenario.HZ e s = (- ENOMEM, s'))
    by (vm_compute; reflexivity).
  assert (Hne : - ENOMEM <> 0) by (unfold ENOMEM; lia).
  exact (chardev_init_failure_leaves_protocol_untouched
           Scenario.HZ e s s' (- ENOMEM) H Hne).
Defined.

(** X2.  [chardev_init] returns 0 exactly when kmalloc, the chrdev region
    call, class_create, device_create and cdev_add all succeed.  Any other
    result is -ENOMEM or the negative result of the region call or of
    cdev_add.  On success [d] has minor 0 and status 1 and holds the device
    pointer, [chardev_class] holds the class pointer, and the major number
    is the one set before loading if it is positive and the allocated one
    otherwise. *)
Theorem chardev_init_succeeds_iff (HZ : Z) (e : init_env) (s : kstate) :
  let ret := fst (chardev_init HZ e s) in
  let s' := snd (chardev_init HZ e s) in
  (ret = 0 <->
     is_Some (kmalloc_ret e) /\ 0 <= chrdev_region_ret e
     /\ IS_ERR (class_create_ret e) = false
     /\ IS_ERR (device_create_ret e) = false
     /\ 0 <= cdev_add_ret e)
  /\ (ret = 0 \/ ret = - ENOMEM
      \/ (ret = chrdev_region_ret e /\ ret < 0)
      \/ (ret = cdev_add_ret e /\ ret < 0))
  /\ (ret = 0 ->
      d s' = Some {| minor := 0; status := 1; device := device_create_ret e |}
      /\ chardev_class s' = class_create_ret e
      /\ chardev_major s'
         = (if chardev_major s >? 0 then chardev_major s else alloc_major e)).
Proof.
  unfold chardev_init, ENOMEM.
  destruct (kmalloc_ret e) as [c|]; simpl.
  2: { split; [split; [lia | intros ([? ?] & _); discriminate]|].
       split; [auto | lia]. }
  destruct (chardev_major s >? 0);
    destruct (chrdev_region_ret e <? 0) eqn:E1;
    [apply Z.ltb_lt in E1 | apply Z.ltb_ge in E1
    |apply Z.ltb_lt in E1 | apply Z.ltb_ge in E1]; simpl.
  1, 3: split; [split; [lia | intros (_ & ? & _); lia]|];
        split; [right; right; left; lia | lia].
  all: destruct (IS_ERR (class_create_ret e)) eqn:E2; simpl;
    [split; [split; [lia | intros (_ & _ & ? & _); discriminate]|];
     split; [auto | lia]|].
  all: destruct (IS_ERR (device_create_ret e)) eqn:E3; simpl;
    [split; [split; [lia | intros (_ & _ & _ & ? & _); discriminate]|];
     split; [auto | lia]|].
  all: destruct (cdev_add_ret e <? 0) eqn:E4;
    [apply Z.ltb_lt in E4 | apply Z.ltb_ge in E4]; simpl;
    [split; [split; [lia | intros (_ & _ & _ & _ & ?); lia]|];
     split; [right; right; right; lia | lia]|].
  all: split; [split; [intros _; repeat split; eauto | done]|];
    split; [auto|]; intros _; by destruct c.
Qed.

Lemma chardev_init_traced_agrees (HZ : Z) (e : init_env) (s : kstate) :
  fst (chardev_init_traced HZ e s) = chardev_init HZ e s.
Proof.
  unfold chardev_init_traced, chardev_init.
  destruct (kmalloc_ret e) as [c|]; [|done]. cbn [chardev_major set_d].
  destruct (chardev_major s >? 0); destruct (chrdev_region_ret e <? 0);
    try done.
  all: cbn [chardev_class set_class].
  all: destruct (IS_ERR (class_create_ret e)); [done|].
  all: cbn [device set_device].
  all: destruct (IS_ERR (device_create_ret e)); [done|].
  all: destruct (cdev_add_ret e <? 0); done.
Qed.

(** X3.  The kernel calls of [chardev_init].  When it fails, the calls
    that succeeded (none of them a release) are followed by the failing
    call and then by exactly the releases that undo the successful ones,
    last acquired first, and the timer is not armed.  When it succeeds
    nothing is released and the last call arms the timer. *)
Theorem chardev_init_unwinds_in_reverse
  (HZ : Z) (e : init_env) (s : kstate) :
  let ret := fst (fst (chardev_init_traced HZ e s)) in
  let tr := snd (chardev_init_traced HZ e s) in
  fst (chardev_init_traced HZ e s) = chardev_init HZ e s
  /\ (ret <> 0 ->
      (exists (done : list kcall) (failed : kcall),
         tr = done ++ failed :: unwind done
         /\ forall c : kcall, c ∈ done ->
              forall c' : kcall, undo c' <> Some c)
      /\ Add_timer ∉ tr)
  /\ (ret = 0 ->
      (forall c : kcall, c ∈ tr -> forall c' : kcall, undo c' <> Some c)
      /\ last tr = Some Add_timer).
Proof.
  split; [apply chardev_init_traced_agrees|].
  unfold chardev_init_traced, ENOMEM.
  assert (Hin : forall (l : list kcall) (c : kcall),
            c ∈ l <-> In c l) by (intros; apply list_elem_of_In).
  destruct (kmalloc_ret e) as [c0|]; simpl.
  2: { split; [|lia]. intros _. split.
       - exists [], Kmalloc. split; [done|].
         intros c Hc. by apply elem_of_nil in Hc.
       - rewrite Hin. simpl. intuition discriminate. }
  destruct (chardev_major s >? 0);
    destruct (chrdev_region_ret e <? 0) eqn:E1;
    [apply Z.ltb_lt in E1 | apply Z.ltb_ge in E1
    |apply Z.ltb_lt in E1 | apply Z.ltb_ge in E1]; simpl.
  1: { split; [|lia]. intros _. split.
       - exists [Kmalloc], Register_chrdev_region. split; [done|].
         intros c Hc c'. rewrite Hin in Hc. simpl in Hc.
         destruct c'; simpl; intuition (subst; discriminate).
       - rewrite Hin. simpl. intuition discriminate. }
  2: { split; [|lia]. intros _. split.
       - exists [Kmalloc], Alloc_chrdev_region. split; [done|].
         intros c Hc c'. rewrite Hin in Hc. simpl in Hc.
         destruct c'; simpl; intuition (subst; discriminate).
       - rewrite Hin. simpl. intuition discriminate. }
  all: destruct (IS_ERR (class_create_ret e)) eqn:E2; simpl.
  1, 3: split; [|unfold ENOMEM; lia]; intros _; split;
    [first [exists [Kmalloc; Register_chrdev_region], Class_create;
            split; [reflexivity|]
           |exists [Kmalloc; Alloc_chrdev_region], Class_create;
            split; [reflexivity|]];
     intros c Hc c'; rewrite Hin in Hc; simpl in Hc;
     destruct c'; simpl; intuition (subst; discriminate)
    |rewrite Hin; simpl; intuition discriminate].
  all: destruct (IS_ERR (device_create_ret e)) eqn:E3; simpl.
  1, 3: split; [|unfold ENOMEM; lia]; intros _; split;
    [first [exists [Kmalloc; Register_chrdev_region; Class_create],
              Device_create; split; [reflexivity|]
           |exists [Kmalloc; Alloc_chrdev_region; Class_create],
              Device_create; split; [reflexivity|]];
     intros c Hc c'; rewrite Hin in Hc; simpl in Hc;
     destruct c'; simpl; intuition (subst; discriminate)
    |rewrite Hin; simpl; intuition discriminate].
  all: destruct (cdev_add_ret e <? 0) eqn:E4;
    [apply Z.ltb_lt in E4 | apply Z.ltb_ge in E4]; simpl.
  1, 3: split; [|lia]; intros _; split;
    [first [exists [Kmalloc; Register_chrdev_region; Class_create;
                    Device_create; Cdev_init], Cdev_add;
            split; [reflexivity|]
           |exists [Kmalloc; Alloc_chrdev_region; Class_create;
                    Device_create; Cdev_init], Cdev_add;
            split; [reflexivity|]];
     intros c Hc c'; rewrite Hin in Hc; simpl in Hc;
     destruct c'; simpl; intuition (subst; discriminate)
    |rewrite Hin; simpl; intuition discriminate].
  all: split; [done|]; intros _; split; [|done];
    intros c Hc c'; rewrite Hin in Hc; simpl in Hc;
    destruct c'; simpl; intuition (subst; discriminate).
Qed.

Lemma chardev_exit_traced_agrees (s : kstate) :
  fst <$> chardev_exit_traced s = chardev_exit s.
Proof.
  unfold chardev_exit_traced, chardev_exit. cbn [d set_timer].
  by destruct (d s).
Qed.

(** X4.  After a successful [chardev_init] (with a positive major number
    and the class and device pointers not NULL) [chardev_exit] makes every
    release that undoes a call of [chardev_init] exactly once, except
    kfree: the structure [d] is never freed and is still allocated
    afterwards. *)
Theorem chardev_exit_releases_all_but_d
  (HZ : Z) (e : init_env) (s s1 : kstate) (tr1 : list kcall) :
  chardev_init_traced HZ e s = (0, s1, tr1) ->
  0 < chardev_major s1 ->
  class_create_ret e <> PNull ->
  device_create_ret e <> PNull ->
  exists (s2 : kstate) (tr2 : list kcall),
    chardev_exit_traced s1 = Some (s2, tr2)
    /\ chardev_exit s1 = Some s2
    /\ tr2 = [Del_timer; Cdev_del; Device_destroy;
              Unregister_chrdev_region; Class_destroy]
    /\ Permutation (tr2 ++ [Kfree]) (unwind tr1)
    /\ (Kfree ∉ tr2)
    /\ is_Some (d s2).
Proof.
  intros Hinit Hmajor Hclass Hdev.
  assert (Hst : d s1 = Some {| minor := 0; status := 1;
                               device := device_create_ret e |}
                /\ chardev_class s1 = class_create_ret e
                /\ IS_ERR (class_create_ret e) = false
                /\ IS_ERR (device_create_ret e) = false
                /\ unwind tr1 = [Del_timer; Cdev_del; Device_destroy;
                                 Class_destroy; Unregister_chrdev_region;
                                 Kfree]).
  { revert Hinit. unfold chardev_init_traced, ENOMEM.
    destruct (kmalloc_ret e) as [c|]; [|intros [= ? ? ?]; lia].
    cbn [chardev_major set_d].
    destruct (chardev_major s >? 0);
      destruct (chrdev_region_ret e <? 0) eqn:E1;
      try (apply Z.ltb_lt in E1; intros [= ? ? ?]; lia).
    all: cbn [chardev_class set_class].
    all: destruct (IS_ERR (class_create_ret e)); [intros [= ? ? ?]; lia|].
    all: cbn [device set_device].
    all: destruct (IS_ERR (device_create_ret e)); [intros [= ? ? ?]; lia|].
    all: destruct (cdev_add_ret e <? 0) eqn:E2;
      [apply Z.ltb_lt in E2; intros [= ? ? ?]; lia|].
    all: intros [= <- <-]; destruct c; simpl; auto. }
  destruct Hst as (Hd & Hc & Hce & Hde & Hun).
  pose proof (chardev_exit_traced_agrees s1) as Hag.
  assert (Hmaj : (chardev_major s1 >? 0) = true)
    by (apply Z.gtb_lt; lia).
  assert (Hx : chardev_exit_traced s1
               = Some (set_class PNull
                         (set_d (Some {| minor := 0; status := 1;
                                         device := PNull |})
                            (set_timer (del_timer (read_timer s1)) s1)),
                       [Del_timer; Cdev_del; Device_destroy;
                        Unregister_chrdev_region; Class_destroy])).
  { unfold chardev_exit_traced. cbn [d set_timer]. rewrite Hd.
    cbn [status device chardev_class chardev_major set_d set_timer].
    rewrite Hc, Hde, Hce, Hmaj.
    destruct (device_create_ret e); [done| |]; simpl;
      (destruct (class_create_ret e); [done| |]; simpl; try done).
    all: discriminate. }
  rewrite Hx in Hag. simpl in Hag.
  eexists _, _. split; [exact Hx|]. split; [done|]. split; [reflexivity|].
  rewrite Hun. split.
  - do 3 apply Permutation_skip. apply perm_swap.
  - split; [|simpl; eauto]. rewrite list_elem_of_In. simpl.
    intuition discriminate.
Qed.

Lemma chardev_exit_releases_all_but_d_witness :
  exists (s2 : kstate) (tr2 : list kcall),
    chardev_exit_traced (ks Scenario.boot) = Some (s2, tr2)
    /\ chardev_exit (ks Scenario.boot) = Some s2
    /\ tr2 = [Del_timer; Cdev_del; Device_destroy;
              Unregister_chrdev_region; Class_destroy]
    /\ Permutation (tr2 ++ [Kfree])
         (unwind (snd (chardev_init_traced Scenario.HZ Scenario.env_ok
                         (module_image 1000 Scenario.mem8))))
    /\ (Kfree ∉ tr2)
    /\ is_Some (d s2).
Proof.
  assert (H : chardev_init_traced Scenario.HZ Scenario.env_ok
                (module_image 1000 Scenario.mem8)
              = (0, ks Scenario.boot,
                 snd (chardev_init_traced Scenario.HZ Scenario.env_ok
                        (module_image 1000 Scenario.mem8))))
    by (vm_compute; reflexivity).
  assert (Hm : 0 < chardev_major (ks Scenario.boot))
    by (vm_compute; reflexivity).
  assert (Hc : class_create_ret Scenario.env_ok <> PNull) by discriminate.
  assert (Hd : device_create_ret Scenario.env_ok <> PNull) by discriminate.
  exact (chardev_exit_releases_all_but_d Scenario.HZ Scenario.env_ok _ _ _
           H Hm Hc Hd).
Defined.

(** X15.  Line 208 is del_timer(), not del_timer_sync(): it takes the
    timer off the wheel and does not wait for a call of [timer_func] that
    has already started on another processor.  When the module is unloaded
    while such a call stands at line 48, the call runs to its end
    afterwards: it sets the flag, arms the timer again for the current
    time plus the [int] product HZ * 5, and returns. *)
Theorem timer_func_outlives_exit (HZ : Z) (w w1 : world) :
  timer_running (ks w) = Some T48 ->
  exec HZ EvExit w = Some w1 ->
  exists w2 : world,
    run HZ [EvTimer; EvTimer; EvTimer; EvTimer] w1 = Some w2
    /\ counter (ks w2) = 1
    /\ pending (read_timer (ks w2)) = true
    /\ expires (read_timer (ks w2))
       = ulong (jiffies (ks w) + int_wrap (HZ * 5))
    /\ timer_running (ks w2) = None.
Proof.
  intros Hr He. apply exec_exit_inv in He as (s' & _ & Hx & ->).
  destruct (chardev_exit_effect _ _ Hx) as (_ & _ & _ & Hj & Hp).
  pose proof (chardev_exit_running _ _ Hx) as Hr'. rewrite Hr in Hr'.
  eexists. unfold run, exec. cbn [ks tasks]. unfold timer_step at 1.
  rewrite Hr'. cbn [ks tasks]. unfold timer_step at 1.
  cbn [timer_running set_running]. cbn [ks tasks]. unfold timer_step at 1.
  cbn [timer_running set_running read_timer set_timer pending set_expires
       atomic_set].
  rewrite Hp. cbn [ks tasks]. unfold timer_step at 1.
  cbn [timer_running set_running]. split; [reflexivity|].
  simpl. rewrite Hj. auto.
Qed.

Lemma timer_func_outlives_exit_witness :
  exists w2 : world,
    run Scenario.HZ [EvTimer; EvTimer; EvTimer; EvTimer] Scenario.torn
    = Some w2
    /\ counter (ks w2) = 1
    /\ pending (read_timer (ks w2)) = true
    /\ expires (read_timer (ks w2))
       = ulong (jiffies (ks Scenario.expired) + int_wrap (Scenario.HZ * 5))
    /\ timer_running (ks w2) = None.
Proof.
  assert (Hr : timer_running (ks Scenario.expired) = Some T48)
    by (vm_compute; reflexivity).
  assert (He : exec Scenario.HZ EvExit Scenario.expired = Some Scenario.torn)
    by (vm_compute; reflexivity).
  exact (timer_func_outlives_exit Scenario.HZ Scenario.expired Scenario.torn
           Hr He).
Defined.

(** Without a call of [timer_func] in progress the timer is stopped for
    good. *)
Lemma exec_timer_stopped (HZ : Z) (e : event) (w w' : world) :
  pending (read_timer (ks w)) = false ->
  timer_running (ks w) = None ->
  exec HZ e w = Some w' ->
  fires [e] = O
  /\ pending (read_timer (ks w')) = false
  /\ timer_running (ks w') = None
  /\ (counter (ks w) = 0 -> counter (ks w') = 0).
Proof.
  intros Hp Hr He. destruct e.
  - injection He as <-. simpl. auto.
  - apply exec_fire_inv in He as (_ & Hp' & _). congruence.
  - apply exec_expire_inv in He as (_ & Hp' & _). congruence.
  - apply exec_timer_inv in He as (_ & Hk).
    destruct Hk as [(? & _)|[(? & _)|[(? & _)|(? & _)]]]; congruence.
  - injection He as <-. simpl. auto.
  - apply exec_step_inv in He as (t & t' & s' & Hl & _ & Hs & ->). simpl.
    destruct (read_step_cases _ _ _ _ _ Hs) as
      [H|[H|[H|[H|[H|[H|[H|[H|[H|[H|H]]]]]]]]]];
      [destruct H as (Hpc & ? & -> & ->) | destruct H as (Hpc & ? & -> & ->)
      |destruct H as (Hpc & ? & -> & ->) | destruct H as (Hpc & ? & -> & ->)
      |destruct H as (Hpc & ? & -> & ->) | destruct H as (Hpc & ? & ? & -> & ->)
      |destruct H as (Hpc & -> & ->) | destruct H as (Hpc & ? & -> & ->)
      |destruct H as (Hpc & ? & -> & ->) | destruct H as (Hpc & -> & ->)
      |destruct H as (r & Hpc & -> & ->)];
      simpl; auto.
  - simpl in He. destruct (tasks w !! cur) as [t|] eqn:Hl; [|discriminate].
    destruct (returned t); [discriminate|]. injection He as <-. simpl. auto.
  - apply exec_exit_inv in He as (s' & _ & Hx & ->). simpl.
    destruct (chardev_exit_effect _ _ Hx) as (Hc & _ & _ & _ & Hp').
    rewrite (chardev_exit_running _ _ Hx), Hc. auto.
Qed.

Lemma run_timer_stopped (HZ : Z) (sched : list event) (w w' : world) :
  pending (read_timer (ks w)) = false ->
  timer_running (ks w) = None ->
  run HZ sched w = Some w' ->
  fires sched = O
  /\ pending (read_timer (ks w')) = false
  /\ timer_running (ks w') = None
  /\ (counter (ks w) = 0 -> counter (ks w') = 0).
Proof.
  revert w. induction sched as [|e rest IH]; intros w Hp Hr Hrun;
    simpl in Hrun.
  - injection Hrun as <-. simpl. auto.
  - destruct (exec HZ e w) as [w1|] eqn:He; [|discriminate].
    destruct (exec_timer_stopped _ _ _ _ Hp Hr He) as (Hf1 & Hp1 & Hr1 & H1).
    destruct (IH _ Hp1 Hr1 Hrun) as (Hf2 & Hp2 & Hr2 & H2).
    rewrite fires_cons, Hf1, Hf2. repeat split; auto.
Qed.

(** X16.  The module is unloaded only while no read is in progress.  When
    no call of the timer function is in progress either, the timer is
    stopped for good: whatever happens afterwards, the timer function is
    not called again, the timer is not pending, and an empty readiness
    flag stays empty. *)
Theorem chardev_exit_stops_idle_timer
  (HZ : Z) (w w' : world) (sched' : list event) (w'' : world) :
  timer_running (ks w) = None ->
  exec HZ EvExit w = Some w' ->
  run HZ sched' w' = Some w'' ->
  idle w = true
  /\ fires sched' = O
  /\ pending (read_timer (ks w'')) = false
  /\ (counter (ks w) = 0 -> counter (ks w'') = 0).
Proof.
  intros Hr He Hrun. apply exec_exit_inv in He as (s' & Hidle & Hx & ->).
  destruct (chardev_exit_effect _ _ Hx) as (Hc & _ & _ & _ & Hp).
  pose proof (chardev_exit_running _ _ Hx) as Hr'. rewrite Hr in Hr'.
  destruct (run_timer_stopped HZ sched' {| ks := s'; tasks := tasks w |}
              w'' Hp Hr' Hrun) as (Hf & Hp' & _ & Hk).
  simpl in Hk. rewrite Hc in Hk. auto.
Qed.

Lemma chardev_exit_stops_idle_timer_witness :
  idle Scenario.boot = true
  /\ fires (repeat EvTick 500 ++ Scenario.whole_read 0) = O
  /\ pending (read_timer (ks Scenario.quiet_later)) = false
  /\ (counter (ks Scenario.boot) = 0 -> counter (ks Scenario.quiet_later) = 0).
Proof.
  assert (Hr : timer_running (ks Scenario.boot) = None)
    by (vm_compute; reflexivity).
  assert (He : exec Scenario.HZ EvExit Scenario.boot = Some Scenario.quiet)
    by (vm_compute; reflexivity).
  assert (Hrun : run Scenario.HZ (repeat EvTick 500 ++ Scenario.whole_read 0)
                   Scenario.quiet = Some Scenario.quiet_later)
    by (vm_compute; reflexivity).
  exact (chardev_exit_stops_idle_timer Scenario.HZ Scenario.boot
           Scenario.quiet _ Scenario.quiet_later Hr He Hrun).
Defined.

(** ** What holds under every interleaving *)

Lemma on_queue_leave (c cur : nat) (q : list nat) :
  on_queue c (leave_queue cur q) = true -> c <> cur /\ on_queue c q = true.
Proof.
  unfold on_queue, leave_queue. induction q as [|a q IH]; simpl; [done|].
  destruct (Nat.eqb cur a) eqn:E; simpl.
  - intros H. destruct (IH H) as (? & ->). by rewrite orb_true_r.
  - intros [H|H]%orb_true_iff.
    + apply Nat.eqb_eq in H as ->. apply Nat.eqb_neq in E.
      rewrite Nat.eqb_refl. auto.
    + destruct (IH H) as (? & ->). by rewrite orb_true_r.
Qed.

Lemma read_step_preserves_result (cur : nat) (t t' : task) (s s' : kstate) :
  read_step cur t s = (t', s') -> read_result t -> read_result t'.
Proof.
  unfold read_result. intros Hs.
  destruct (read_step_keeps_arguments cur t s) as (Hfilp & _).
  rewrite Hs in Hfilp. simpl in Hfilp.
  destruct (read_step_cases _ _ _ _ _ Hs) as
    [H|[H|[H|[H|[H|[H|[H|[H|[H|[H|H]]]]]]]]]];
    [destruct H as (Hpc & ? & -> & ->) | destruct H as (Hpc & ? & -> & ->)
    |destruct H as (Hpc & ? & -> & ->) | destruct H as (Hpc & ? & -> & ->)
    |destruct H as (Hpc & ? & -> & ->) | destruct H as (Hpc & ? & ? & -> & ->)
    |destruct H as (Hpc & -> & ->) | destruct H as (Hpc & ? & -> & ->)
    |destruct H as (Hpc & ? & -> & ->) | destruct H as (Hpc & -> & ->)
    |destruct H as (r & Hpc & -> & ->)];
    simpl; auto.
Qed.

Lemma exec_preserves_result (HZ : Z) (e : event) (w w' : world) :
  Forall read_result (tasks w) -> exec HZ e w = Some w' ->
  Forall read_result (tasks w').
Proof.
  intros Ht He. destruct e.
  - by injection He as <-.
  - by apply exec_fire_inv in He as (_ & _ & _ & ->).
  - by apply exec_expire_inv in He as (_ & _ & _ & ->).
  - apply exec_timer_inv in He as (Hts & _). by rewrite Hts.
  - injection He as <-. simpl. apply Forall_app. split; [done|].
    by apply Forall_singleton.
  - apply exec_step_inv in He as (t & t' & s' & Hl & _ & Hs & ->). simpl.
    apply Forall_insert; [done|].
    eapply read_step_preserves_result; [exact Hs|].
    exact (Forall_lookup_1 _ _ _ _ Ht Hl).
  - simpl in He. destruct (tasks w !! cur) as [t|] eqn:Hl; [|discriminate].
    destruct (returned t); [discriminate|]. injection He as <-. simpl.
    apply Forall_insert; [done|]. exact (Forall_lookup_1 _ _ _ _ Ht Hl).
  - by apply exec_exit_inv in He as (s' & _ & _ & ->).
Qed.

Lemma exec_preserves_queued_asleep (HZ : Z) (e : event) (w w' : world) :
  queued_asleep w -> exec HZ e w = Some w' -> queued_asleep w'.
Proof.
  unfold queued_asleep. intros Hq He. destruct e.
  - injection He as <-. exact Hq.
  - apply exec_fire_inv in He as (_ & _ & _ & ->).
    rewrite timer_func_effect. simpl. done.
  - apply exec_expire_inv in He as (_ & _ & _ & ->). exact Hq.
  - apply exec_timer_inv in He as (Hts & Hk). rewrite Hts.
    destruct Hk as [(_ & ->)|[(_ & ->)|[(_ & _ & ->)|(_ & ->)]]];
      simpl; done.
  - injection He as <-. simpl. intros c Hc.
    destruct (Hq c Hc) as (t & Hl & Hpc). exists t. split; [|done].
    by apply lookup_app_l_Some.
  - apply exec_step_inv in He as (t & t' & s' & Hl & Hrun & Hs & ->). simpl.
    assert (Hoff : on_queue cur (queue (ks w)) = false).
    { destruct (on_queue cur (queue (ks w))) eqn:Hon; [|done].
      destruct (Hq cur Hon) as (u & Hlu & Hpu).
      assert (u = t) as -> by congruence.
      unfold runnable in Hrun. rewrite Hpu, Hon in Hrun. discriminate. }
    assert (Hother : forall c : nat,
              on_queue c (queue (ks w)) = true ->
              exists u : task,
                <[cur := t']> (tasks w) !! c = Some u /\ t_pc u = Sched).
    { intros c Hc. destruct (decide (c = cur)) as [->|Hne]; [congruence|].
      destruct (Hq c Hc) as (u & Hlu & Hpu). exists u.
      by rewrite list_lookup_insert_ne. }
    destruct (read_step_cases _ _ _ _ _ Hs) as
      [H|[H|[H|[H|[H|[H|[H|[H|[H|[H|H]]]]]]]]]];
      [destruct H as (Hpc & ? & -> & ->) | destruct H as (Hpc & ? & -> & ->)
      |destruct H as (Hpc & ? & -> & ->) | destruct H as (Hpc & ? & -> & ->)
      |destruct H as (Hpc & ? & -> & ->) | destruct H as (Hpc & ? & ? & -> & ->)
      |destruct H as (Hpc & -> & ->) | destruct H as (Hpc & ? & -> & ->)
      |destruct H as (Hpc & ? & -> & ->) | destruct H as (Hpc & -> & ->)
      |destruct H as (r & Hpc & -> & ->)];
      simpl; auto.
    intros c Hc. unfold on_queue in Hc. simpl in Hc.
    apply orb_true_iff in Hc as [Hc|Hc]; [|by apply Hother].
    apply Nat.eqb_eq in Hc as ->. exists (goto Sched t). split; [|done].
    apply list_lookup_insert_eq. by eapply lookup_lt_Some.
  - simpl in He. destruct (tasks w !! cur) as [t|] eqn:Hl; [|discriminate].
    destruct (returned t); [discriminate|]. injection He as <-. simpl.
    intros c Hc. apply on_queue_leave in Hc as (Hne & Hc).
    destruct (Hq c Hc) as (u & Hlu & Hpu). exists u.
    by rewrite list_lookup_insert_ne.
  - apply exec_exit_inv in He as (s' & _ & Hx & ->). simpl.
    destruct (chardev_exit_effect _ _ Hx) as (_ & -> & _). exact Hq.
Qed.

Lemma run_preserves_more (HZ : Z) (sched : list event) (w w' : world) :
  Forall read_result (tasks w) -> queued_asleep w ->
  run HZ sched w = Some w' ->
  Forall read_result (tasks w') /\ queued_asleep w'.
Proof.
  revert w. induction sched as [|e rest IH]; intros w Hr Hq Hrun;
    simpl in Hrun.
  - by injection Hrun as <-.
  - destruct (exec HZ e w) as [w1|] eqn:He; [|discriminate].
    eauto using exec_preserves_result, exec_preserves_queued_asleep.
Qed.

Lemma insmod_more (HZ : Z) (e : init_env) (j : Z) (m : gmap Z byte) (w0 : world) :
  insmod HZ e j m = Some w0 ->
  Forall read_result (tasks w0) /\ queued_asleep w0.
Proof.
  intros H. apply insmod_started in H as (_ & Hq & Ht & _).
  unfold queued_asleep. rewrite Hq, Ht. split; [constructor | done].
Qed.

(** X6.  Under every interleaving, a read that has returned has returned
    4, -EFAULT or -EAGAIN, and -EAGAIN only on a session in non-blocking
    mode; a read on a session in non-blocking mode is never at line 63 and
    never asleep. *)
Theorem read_results_and_nonblocking_never_sleeps
  (HZ : Z) (e0 : init_env) (j : Z) (m : gmap Z byte) (w0 : world)
  (sched : list event) (w : world) (cur : nat) (t : task) :
  insmod HZ e0 j m = Some w0 ->
  run HZ sched w0 = Some w ->
  tasks w !! cur = Some t ->
  (forall r : Z,
     retval t = Some r ->
     r = 4 \/ r = - EFAULT
     \/ (r = - EAGAIN /\ nonblocking (t_filp t) = true))
  /\ (nonblocking (t_filp t) = true ->
      t_pc t <> L63 /\ t_pc t <> Sched
      /\ on_queue cur (queue (ks w)) = false).
Proof.
  intros Hboot Hrun Hl.
  pose proof (run_preserves_inv _ _ _ _ (insmod_inv _ _ _ _ _ Hboot) Hrun)
    as (_ & Hb).
  destruct (insmod_more _ _ _ _ _ Hboot) as (Hr0 & Hq0).
  destruct (run_preserves_more _ _ _ _ Hr0 Hq0 Hrun) as (Hr & Hqa).
  pose proof (Forall_lookup_1 _ _ _ _ Hr Hl) as Hres.
  pose proof (Forall_lookup_1 _ _ _ _ Hb Hl) as Hwb.
  unfold read_result, retval, waits_only_if_blocking in *. split.
  - intros r Hret. destruct (t_pc t); try discriminate.
    by injection Hret as <-.
  - intros Hnb.
    assert (Hpc : t_pc t <> L63 /\ t_pc t <> Sched).
    { split; intros Hpc; rewrite Hwb in Hnb; auto; discriminate. }
    destruct Hpc as (H63 & Hsch). repeat split; auto.
    destruct (on_queue cur (queue (ks w))) eqn:Hon; [|done].
    destruct (Hqa cur Hon) as (u & Hlu & Hpu). congruence.
Qed.

Lemma read_results_and_nonblocking_never_sleeps_witness :
  (forall r : Z,
     retval (goto (Ret 4) (enter_read Scenario.blocking_file 104 4 0))
     = Some r ->
     r = 4 \/ r = - EFAULT
     \/ (r = - EAGAIN /\ nonblocking Scenario.blocking_file = true))
  /\ (nonblocking Scenario.blocking_file = true ->
      Ret 4 <> L63 /\ Ret 4 <> Sched
      /\ on_queue 1 (queue (ks Scenario.served)) = false).
Proof.
  assert (H0 : insmod Scenario.HZ Scenario.env_ok 1000 Scenario.mem8
               = Some Scenario.boot) by (vm_compute; reflexivity).
  assert (H1 : run Scenario.HZ Scenario.serve Scenario.boot
               = Some Scenario.served) by (vm_compute; reflexivity).
  assert (H2 : tasks Scenario.served !! 1%nat
               = Some (goto (Ret 4)
                         (enter_read Scenario.blocking_file 104 4 0)))
    by (vm_compute; reflexivity).
  exact (read_results_and_nonblocking_never_sleeps Scenario.HZ
           Scenario.env_ok 1000 Scenario.mem8 Scenario.boot Scenario.serve
           Scenario.served 1%nat _ H0 H1 H2).
Defined.

Lemma exec_preserves_callback_ok (HZ : Z) (e : event) (w w' : world) :
  callback_ok (ks w) -> exec HZ e w = Some w' -> callback_ok (ks w').
Proof.
  unfold callback_ok. intros Hk He. destruct e.
  - injection He as <-. exact Hk.
  - apply exec_fire_inv in He as (Hr & _ & _ & ->).
    rewrite timer_func_effect. simpl. by rewrite Hr.
  - by apply exec_expire_inv in He as (_ & _ & _ & ->).
  - apply exec_timer_inv in He as (_ & Hc).
    destruct Hc as [(Hr & ->)|[(Hr & ->)|[(Hr & _ & ->)|(Hr & ->)]]];
      rewrite Hr in Hk; simpl; done.
  - injection He as <-. exact Hk.
  - apply exec_step_inv in He as (t & t' & s' & _ & _ & Hs & ->). simpl.
    destruct (read_step_cases _ _ _ _ _ Hs) as
      [H|[H|[H|[H|[H|[H|[H|[H|[H|[H|H]]]]]]]]]];
      [destruct H as (Hpc & ? & -> & ->) | destruct H as (Hpc & ? & -> & ->)
      |destruct H as (Hpc & ? & -> & ->) | destruct H as (Hpc & ? & -> & ->)
      |destruct H as (Hpc & ? & -> & ->) | destruct H as (Hpc & ? & ? & -> & ->)
      |destruct H as (Hpc & -> & ->) | destruct H as (Hpc & ? & -> & ->)
      |destruct H as (Hpc & ? & -> & ->) | destruct H as (Hpc & -> & ->)
      |destruct H as (r & Hpc & -> & ->)];
      exact Hk.
  - simpl in He. destruct (tasks w !! cur) as [t|]; [|discriminate].
    destruct (returned t); [discriminate|]. injection He as <-. exact Hk.
  - apply exec_exit_inv in He as (s' & _ & Hx & ->). simpl.
    destruct (chardev_exit_effect _ _ Hx) as (_ & _ & _ & _ & ->).
    by destruct (timer_running s') as [[| | |]|].
Qed.

Lemma run_preserves_callback_ok
  (HZ : Z) (sched : list event) (w w' : world) :
  callback_ok (ks w) -> run HZ sched w = Some w' -> callback_ok (ks w').
Proof.
  revert w. induction sched as [|e rest IH]; intros w Hk Hrun; simpl in Hrun.
  - by injection Hrun as <-.
  - destruct (exec HZ e w) as [w1|] eqn:He; [|discriminate].
    eauto using exec_preserves_callback_ok.
Qed.

(** X17.  A call of the timer function that has started can always take
    its next line, under every interleaving and also after the module has
    been unloaded: in particular the add_timer of line 50 never meets a
    pending timer, because the timer is off the wheel from the start of
    the call until that line. *)
Theorem timer_func_runs_to_completion
  (HZ : Z) (e0 : init_env) (j : Z) (m : gmap Z byte) (w0 : world)
  (sched : list event) (w : world) (l : tlabel) :
  insmod HZ e0 j m = Some w0 ->
  run HZ sched w0 = Some w ->
  timer_running (ks w) = Some l ->
  (l <> T51 -> pending (read_timer (ks w)) = false)
  /\ is_Some (exec HZ EvTimer w).
Proof.
  intros Hboot Hrun Hl.
  assert (Hk : callback_ok (ks w)).
  { apply (run_preserves_callback_ok HZ sched w0); [|done].
    unfold callback_ok. by rewrite (insmod_running _ _ _ _ _ Hboot). }
  unfold callback_ok in Hk. unfold exec, timer_step. rewrite Hl in *.
  destruct l; try rewrite Hk; split; eauto; done.
Qed.

Lemma timer_func_runs_to_completion_witness :
  (T50 <> T51 -> pending (read_timer (ks Scenario.rearming)) = false)
  /\ is_Some (exec Scenario.HZ EvTimer Scenario.rearming).
Proof.
  assert (H0 : insmod Scenario.HZ Scenario.env_ok 1000 Scenario.mem8
               = Some Scenario.boot) by (vm_compute; reflexivity).
  assert (H1 : run Scenario.HZ (Scenario.unload_race ++ [EvTimer; EvTimer])
                 Scenario.boot = Some Scenario.rearming)
    by (vm_compute; reflexivity).
  assert (H2 : timer_running (ks Scenario.rearming) = Some T50)
    by (vm_compute; reflexivity).
  exact (timer_func_runs_to_completion Scenario.HZ Scenario.env_ok 1000
           Scenario.mem8 Scenario.boot
           (Scenario.unload_race ++ [EvTimer; EvTimer]) Scenario.rearming
           T50 H0 H1 H2).
Defined.

(** ** Running alone, sleeping and waking *)

Lemma exec_step_eq (HZ : Z) (cur : nat) (w : world) (t : task) :
  tasks w !! cur = Some t ->
  runnable cur t (ks w) = true ->
  exec HZ (EvStep cur) w
  = Some {| ks := snd (read_step cur t (ks w));
            tasks := <[cur := fst (read_step cur t (ks w))]> (tasks w) |}.
Proof.
  intros Hl Hr. unfold exec. rewrite Hl, Hr.
  by destruct (read_step cur t (ks w)).
Qed.

Lemma run_cons (HZ : Z) (e : event) (rest : list event) (w : world) :
  run HZ (e :: rest) w
  = match exec HZ e w with
    | Some w' => run HZ rest w'
    | None => None
    end.
Proof. reflexivity. Qed.

Lemma run_task_as_steps
  (HZ : Z) (fuel : nat) (w : world) (cur : nat) (t : task) :
  tasks w !! cur = Some t ->
  exists n : nat,
    (n <= fuel)%nat
    /\ run HZ (repeat (EvStep cur) n) w
       = Some {| ks := snd (run_task fuel cur t (ks w));
                 tasks := <[cur := fst (run_task fuel cur t (ks w))]>
                            (tasks w) |}.
Proof.
  revert w t. induction fuel as [|fuel IH]; intros w t Hl.
  - exists O. split; [lia|]. simpl. rewrite list_insert_id by done.
    by destruct w.
  - simpl. destruct (runnable cur t (ks w)) eqn:Hr.
    + destruct (read_step cur t (ks w)) as [t' s'] eqn:Hs.
      assert (Hl' : tasks {| ks := s'; tasks := <[cur := t']> (tasks w) |}
                    !! cur = Some t').
      { simpl. apply list_lookup_insert_eq. by eapply lookup_lt_Some. }
      destruct (IH _ _ Hl') as (n & Hn & Hrun).
      exists (S n). split; [lia|]. cbn [repeat]. rewrite run_cons.
      rewrite (exec_step_eq HZ cur w t Hl Hr), Hs. cbn [fst snd].
      rewrite Hrun. cbn [ks tasks]. by rewrite list_insert_insert_eq.
    + exists O. split; [lia|]. simpl. rewrite list_insert_id by done.
      by destruct w.
Qed.

(** X7.  [chardev_read] is what the device does for a new caller that
    runs alone: from any state, the call followed by at most four steps of
    the caller leads to the state and the control point that
    [chardev_read] gives, every other caller unchanged; and the caller then
    cannot run any further: it has returned or it is asleep on the wait
    queue. *)
Theorem chardev_read_is_solo_schedule
  (HZ : Z) (w : world) (f : file) (buf count off : Z) :
  let cur := length (tasks w) in
  let r := chardev_read cur f buf count off (ks w) in
  (exists n : nat,
     (n <= 4)%nat
     /\ run HZ (EvRead f buf count off :: repeat (EvStep cur) n) w
        = Some {| ks := snd r; tasks := tasks w ++ [fst r] |})
  /\ runnable cur (fst r) (snd r) = false.
Proof.
  intros cur r. split.
  - set (w1 := {| ks := ks w;
                  tasks := tasks w ++ [enter_read f buf count off] |}).
    assert (Hl : tasks w1 !! cur = Some (enter_read f buf count off))
      by apply list_lookup_middle, eq_refl.
    destruct (run_task_as_steps HZ 4 w1 cur _ Hl) as (n & Hn & Hrun).
    exists n. split; [done|]. rewrite run_cons. cbn [exec]. fold w1.
    rewrite Hrun. subst r. unfold chardev_read. cbn [ks tasks w1].
    do 2 f_equal. unfold cur.
    rewrite insert_app_r_alt by lia. by rewrite Nat.sub_diag.
  - subst r. destruct (decide (atomic_read (ks w) = 0)) as [H0|H1].
    + rewrite chardev_read_flag_clear by done.
      destruct (nonblocking f); [done|].
      unfold runnable, on_queue. simpl. by rewrite Nat.eqb_refl.
    + rewrite chardev_read_flag_set by done.
      destruct (copy_to_user buf payload (umem (ks w))) as [uncopied m0].
      by destruct (uncopied =? 0).
Qed.

(** X8.  A read in blocking mode that is entered with no signal pending
    and finds the readiness flag empty does not return: the caller is put
    on the wait queue and cannot run, and nothing else of the device state
    changes.  [chardev_read] is the case of the task [enter_read], which
    has no signal pending; with a signal pending the caller does not sleep
    (X11). *)
Theorem chardev_read_blocking_empty_sleeps
  (cur : nat) (t : task) (s : kstate) :
  t_pc t = L59 ->
  t_sig t = false ->
  counter s = 0 ->
  nonblocking (t_filp t) = false ->
  run_task 4 cur t s = (goto Sched t, set_queue (cur :: queue s) s)
  /\ retval (goto Sched t) = None
  /\ runnable cur (goto Sched t) (set_queue (cur :: queue s) s) = false.
Proof.
  intros Hpc Hsig Hc Hf.
  assert (Hrun : runnable cur (goto Sched t) (set_queue (cur :: queue s) s)
                 = false).
  { unfold runnable, on_queue. simpl. by rewrite Nat.eqb_refl. }
  split; [|done]. unfold nonblocking in Hf. apply negb_false_iff in Hf.
  unfold run_task.
  unfold runnable at 1. rewrite Hpc.
  unfold read_step at 1. rewrite Hpc. unfold atomic_read. rewrite Hc.
  cbn [Z.eqb]. cbn [runnable read_step goto t_pc t_buf t_sig t_filp].
  rewrite Hf. cbn [runnable read_step goto t_pc t_buf t_sig t_filp].
  unfold atomic_read. rewrite Hc, Hsig. cbn [Z.eqb].
  change (goto Sched (goto L63 (goto L60 t))) with (goto Sched t).
  by rewrite Hrun.
Qed.

Lemma chardev_read_blocking_empty_sleeps_witness :
  chardev_read 1 Scenario.blocking_file 100 4 0
    (atomic_set 0 (ks Scenario.boot))
  = (goto Sched (enter_read Scenario.blocking_file 100 4 0),
     set_queue (1%nat :: queue (atomic_set 0 (ks Scenario.boot)))
       (atomic_set 0 (ks Scenario.boot)))
  /\ retval (goto Sched (enter_read Scenario.blocking_file 100 4 0)) = None
  /\ runnable 1 (goto Sched (enter_read Scenario.blocking_file 100 4 0))
       (set_queue (1%nat :: queue (atomic_set 0 (ks Scenario.boot)))
          (atomic_set 0 (ks Scenario.boot))) = false.
Proof.
  exact (chardev_read_blocking_empty_sleeps 1
           (enter_read Scenario.blocking_file 100 4 0)
           (atomic_set 0 (ks Scenario.boot)) eq_refl eq_refl eq_refl eq_refl).
Defined.

(** A reader that wakes up and finds the flag ready goes through lines
    63, 59, 67 and 70. *)
Lemma run_task_woken_ready (cur : nat) (t : task) (s : kstate) :
  t_pc t = Sched ->
  on_queue cur (queue s) = false ->
  counter s = 1 ->
  fst (copy_to_user (t_buf t) payload (umem s)) = 0 ->
  run_task 5 cur t s
  = (goto (Ret 4) t,
     atomic_set 0 (set_umem (snd (copy_to_user (t_buf t) payload (umem s))) s)).
Proof.
  intros Hpc Hq Hc Hcopy. unfold run_task.
  unfold runnable at 1. rewrite Hpc, Hq. cbn [negb].
  unfold read_step at 1. rewrite Hpc.
  cbn [runnable read_step goto t_pc t_buf t_sig t_filp].
  unfold atomic_read. rewrite Hc. cbn [Z.eqb Pos.eqb].
  cbn [runnable read_step goto t_pc t_buf t_sig t_filp].
  unfold atomic_read. rewrite Hc. cbn [Z.eqb].
  cbn [runnable read_step goto t_pc t_buf t_sig t_filp].
  destruct (copy_to_user (t_buf t) payload (umem s)) as [uncopied m].
  simpl in Hcopy. subst uncopied. cbn [Z.eqb fst snd].
  cbn [runnable read_step goto t_pc t_buf t_sig t_filp]. done.
Qed.

(** X9.  A reader asleep in a blocking read when the timer fires, and
    scheduled next, returns 4 with the payload copied to its buffer
    (provided the copy succeeds) and leaves the flag empty; the other
    callers are unchanged. *)
Theorem woken_reader_returns_payload
  (HZ : Z) (w w1 : world) (cur : nat) (t : task) :
  tasks w !! cur = Some t ->
  t_pc t = Sched ->
  exec HZ EvFire w = Some w1 ->
  fst (copy_to_user (t_buf t) payload (umem (ks w))) = 0 ->
  exists (n : nat) (w2 : world),
    (n <= 5)%nat
    /\ run HZ (repeat (EvStep cur) n) w1 = Some w2
    /\ tasks w2 = <[cur := goto (Ret 4) t]> (tasks w)
    /\ counter (ks w2) = 0
    /\ umem (ks w2) = snd (copy_to_user (t_buf t) payload (umem (ks w))).
Proof.
  intros Hl Hpc Hfire Hcopy.
  apply exec_fire_inv in Hfire as (_ & _ & _ & ->).
  destruct (run_task_as_steps HZ 5
              {| ks := timer_func HZ (data (read_timer (ks w)))
                         (set_timer (del_timer (read_timer (ks w))) (ks w));
                 tasks := tasks w |} cur t Hl) as (n & Hn & Hrun).
  cbn [ks tasks] in Hrun.
  rewrite run_task_woken_ready in Hrun by (rewrite ?timer_func_effect; done).
  eexists n, _. split; [done|]. split; [exact Hrun|].
  rewrite timer_func_effect. simpl. auto.
Qed.

Lemma woken_reader_returns_payload_witness :
  exists (n : nat) (w2 : world),
    (n <= 5)%nat
    /\ run Scenario.HZ (repeat (EvStep 0%nat) n) Scenario.refired = Some w2
    /\ tasks w2
       = <[0%nat := goto (Ret 4)
                      (goto Sched (enter_read {| f_flags := 0 |} 100 4 0))]>
           (tasks Scenario.due)
    /\ counter (ks w2) = 0
    /\ umem (ks w2)
       = snd (copy_to_user 100 payload (umem (ks Scenario.due))).
Proof.
  assert (H : exec Scenario.HZ EvFire Scenario.due = Some Scenario.refired)
    by (vm_compute; reflexivity).
  exact (woken_reader_returns_payload Scenario.HZ Scenario.due
           Scenario.refired 0%nat
           (goto Sched (enter_read {| f_flags := 0 |} 100 4 0))
           eq_refl eq_refl H eq_refl).
Defined.

(** X10.  A reader that wakes up and finds the flag already empty (another
    reader took the readiness) does not return: after two steps it is
    asleep on the wait queue again and nothing else has changed. *)
Theorem woken_reader_sleeps_again
  (HZ : Z) (w : world) (cur : nat) (t : task) :
  tasks w !! cur = Some t ->
  t_pc t = Sched ->
  on_queue cur (queue (ks w)) = false ->
  counter (ks w) = 0 ->
  t_sig t = false ->
  run HZ [EvStep cur; EvStep cur] w
  = Some {| ks := set_queue (cur :: queue (ks w)) (ks w);
            tasks := tasks w |}.
Proof.
  intros Hl Hpc Hq Hc Hsig.
  assert (Hlen : (cur < length (tasks w))%nat) by by eapply lookup_lt_Some.
  rewrite run_cons.
  rewrite (exec_step_eq HZ cur w t Hl)
    by (unfold runnable; by rewrite Hpc, Hq).
  unfold read_step at 1 2. rewrite Hpc. cbn [fst snd].
  rewrite run_cons.
  rewrite (exec_step_eq HZ cur _ (goto L63 t))
    by (simpl; by rewrite ?list_lookup_insert_eq).
  cbn [ks tasks run]. unfold read_step, atomic_read.
  cbn [goto t_pc t_sig]. rewrite Hc, Hsig. cbn [Z.eqb fst snd].
  rewrite list_insert_insert_eq.
  replace (goto Sched (goto L63 t)) with t
    by (destruct t; simpl in *; by subst).
  by rewrite list_insert_id.
Qed.

Lemma woken_reader_sleeps_again_witness :
  run Scenario.HZ [EvStep 0%nat; EvStep 0%nat]
    {| ks := set_queue [] (ks Scenario.due); tasks := tasks Scenario.due |}
  = Some {| ks := set_queue (0%nat :: queue (set_queue [] (ks Scenario.due)))
                    (set_queue [] (ks Scenario.due));
            tasks := tasks Scenario.due |}.
Proof.
  exact (woken_reader_sleeps_again Scenario.HZ
           {| ks := set_queue [] (ks Scenario.due);
              tasks := tasks Scenario.due |}
           0%nat (goto Sched (enter_read {| f_flags := 0 |} 100 4 0))
           eq_refl eq_refl eq_refl eq_refl eq_refl).
Defined.

Lemma on_queue_left (cur : nat) (q : list nat) :
  on_queue cur (leave_queue cur q) = false.
Proof.
  destruct (on_queue cur (leave_queue cur q)) eqn:E; [|done].
  by apply on_queue_leave in E as (? & _).
Qed.

Lemma read_step_spinning (cur : nat) (t t' : task) (s s' : kstate) :
  read_step cur t s = (t', s') ->
  spinning cur t s -> counter s = 0 ->
  runnable cur t s = true /\ spinning cur t' s' /\ s' = s.
Proof.
  unfold spinning, runnable. intros Hs (Hb & Hsig & Hq & Hpc) Hc.
  destruct (read_step_cases _ _ _ _ _ Hs) as
    [H|[H|[H|[H|[H|[H|[H|[H|[H|[H|H]]]]]]]]]];
    [destruct H as (Hp & ? & -> & ->) | destruct H as (Hp & ? & -> & ->)
    |destruct H as (Hp & ? & -> & ->) | destruct H as (Hp & ? & -> & ->)
    |destruct H as (Hp & ? & -> & ->) | destruct H as (Hp & ? & ? & -> & ->)
    |destruct H as (Hp & -> & ->) | destruct H as (Hp & ? & -> & ->)
    |destruct H as (Hp & ? & -> & ->) | destruct H as (Hp & -> & ->)
    |destruct H as (r & Hp & -> & ->)];
    rewrite Hp in *; simpl; rewrite ?Hq;
    try (destruct Hpc as [?|[?|[?|?]]]; discriminate);
    try congruence; auto 10.
Qed.

Lemma spinning_forever (HZ : Z) (n : nat) (w : world) (cur : nat) (t : task) :
  tasks w !! cur = Some t ->
  spinning cur t (ks w) -> counter (ks w) = 0 ->
  exists (w' : world) (t' : task),
    run HZ (repeat (EvStep cur) n) w = Some w'
    /\ tasks w' !! cur = Some t' /\ spinning cur t' (ks w')
    /\ ks w' = ks w.
Proof.
  revert w t. induction n as [|n IH]; intros w t Hl Hsp Hc.
  - exists w, t. auto.
  - destruct (read_step cur t (ks w)) as [t1 s1] eqn:Hs.
    destruct (read_step_spinning _ _ _ _ _ Hs Hsp Hc) as (Hr & Hsp1 & Heq).
    subst s1.
    cbn [repeat]. rewrite run_cons.
    rewrite (exec_step_eq HZ cur w t Hl Hr), Hs. cbn [fst snd].
    destruct (IH {| ks := ks w; tasks := <[cur := t1]> (tasks w) |} t1)
      as (w' & t' & Hrun & ? & ? & ?); auto.
    simpl. apply list_lookup_insert_eq. by eapply lookup_lt_Some.
    eauto 10.
Qed.

(** X11.  A signal does not end a blocking read.  When a signal is sent
    to a reader asleep in blocking mode while the flag is empty, the reader
    does not return (the -ERESTARTSYS of line 63 is dropped): however many
    steps it takes, it is still in the loop of lines 59-64 without a
    result, able to run, and never back on the wait queue. *)
Theorem signalled_reader_busy_waits
  (HZ : Z) (w : world) (cur : nat) (t : task) (n : nat) :
  tasks w !! cur = Some t ->
  t_pc t = Sched ->
  nonblocking (t_filp t) = false ->
  counter (ks w) = 0 ->
  exists (w' : world) (t' : task),
    run HZ (EvSignal cur :: repeat (EvStep cur) n) w = Some w'
    /\ tasks w' !! cur = Some t'
    /\ retval t' = None
    /\ runnable cur t' (ks w') = true
    /\ on_queue cur (queue (ks w')) = false
    /\ counter (ks w') = 0.
Proof.
  intros Hl Hpc Hb Hc.
  assert (Hlen : (cur < length (tasks w))%nat) by by eapply lookup_lt_Some.
  rewrite run_cons. cbn [exec]. rewrite Hl. unfold returned. rewrite Hpc.
  set (w1 := {| ks := set_queue (leave_queue cur (queue (ks w))) (ks w);
                tasks := <[cur := raise_signal t]> (tasks w) |}).
  assert (Hsp : spinning cur (raise_signal t) (ks w1)).
  { unfold spinning. simpl. rewrite on_queue_left. auto 10. }
  destruct (spinning_forever HZ n w1 cur (raise_signal t))
    as (w' & t' & Hrun & Hl' & Hsp' & Hks); auto.
  { simpl. by apply list_lookup_insert_eq. }
  exists w', t'. split; [exact Hrun|]. split; [exact Hl'|].
  destruct Hsp' as (_ & _ & Hq' & Hpc').
  unfold retval, runnable. rewrite Hq', Hks. simpl.
  destruct Hpc' as [-> | [-> | [-> | ->]]]; auto.
Qed.

Lemma signalled_reader_busy_waits_witness :
  exists (w' : world) (t' : task),
    run Scenario.HZ (EvSignal 0%nat :: repeat (EvStep 0%nat) 7) Scenario.due
    = Some w'
    /\ tasks w' !! 0%nat = Some t'
    /\ retval t' = None
    /\ runnable 0 t' (ks w') = true
    /\ on_queue 0 (queue (ks w')) = false
    /\ counter (ks w') = 0.
Proof.
  exact (signalled_reader_busy_waits Scenario.HZ Scenario.due 0%nat
           (goto Sched (enter_read {| f_flags := 0 |} 100 4 0)) 7
           eq_refl eq_refl eq_refl eq_refl).
Defined.

(** ** The period, and what a read touches *)


Lemma read_step_untouched (cur : nat) (t t' : task) (s s' : kstate) :
  read_step cur t s = (t', s') ->
  read_timer s' = read_timer s /\ jiffies s' = jiffies s /\ d s' = d s
  /\ chardev_major s' = chardev_major s
  /\ chardev_class s' = chardev_class s
  /\ (forall a : Z,
        a < t_buf t \/ t_buf t + 4 <= a -> umem s' !! a = umem s !! a)
  /\ (forall a : Z, is_Some (umem s' !! a) <-> is_Some (umem s !! a)).
Proof.
  intros Hs.
  pose proof (copy_to_user_outside payload (t_buf t) (umem s)) as Hout.
  pose proof (copy_to_user_mapped payload (t_buf t) (umem s)) as Hmap.
  destruct (read_step_cases _ _ _ _ _ Hs) as
    [H|[H|[H|[H|[H|[H|[H|[H|[H|[H|H]]]]]]]]]];
    [destruct H as (Hp & ? & -> & ->) | destruct H as (Hp & ? & -> & ->)
    |destruct H as (Hp & ? & -> & ->) | destruct H as (Hp & ? & -> & ->)
    |destruct H as (Hp & ? & -> & ->) | destruct H as (Hp & ? & ? & -> & ->)
    |destruct H as (Hp & -> & ->) | destruct H as (Hp & ? & -> & ->)
    |destruct H as (Hp & ? & -> & ->) | destruct H as (Hp & -> & ->)
    |destruct H as (r & Hp & -> & ->)];
    simpl; repeat split; auto; try (by apply Hmap).
Qed.

(** X12.  A step of a reader changes nothing but the readiness flag, the
    wait queue, the reader itself and user memory, and in user memory only
    bytes among the four at that reader's buffer, whatever its [count] is:
    the timer, the clock, [d], the major number, the class and the other
    callers are untouched, and no address is mapped or unmapped. *)
Theorem reader_step_frame
  (HZ : Z) (cur : nat) (w w' : world) (t : task) :
  exec HZ (EvStep cur) w = Some w' ->
  tasks w !! cur = Some t ->
  read_timer (ks w') = read_timer (ks w)
  /\ jiffies (ks w') = jiffies (ks w) /\ d (ks w') = d (ks w)
  /\ chardev_major (ks w') = chardev_major (ks w)
  /\ chardev_class (ks w') = chardev_class (ks w)
  /\ (forall a : Z,
        a < t_buf t \/ t_buf t + 4 <= a ->
        umem (ks w') !! a = umem (ks w) !! a)
  /\ (forall a : Z,
        is_Some (umem (ks w') !! a) <-> is_Some (umem (ks w) !! a))
  /\ (forall c : nat, c <> cur -> tasks w' !! c = tasks w !! c).
Proof.
  intros He Hl.
  apply exec_step_inv in He as (u & t' & s' & Hu & _ & Hs & ->).
  assert (u = t) as -> by congruence. cbn [ks tasks].
  destruct (read_step_untouched _ _ _ _ _ Hs)
    as (? & ? & ? & ? & ? & ? & Hmap).
  repeat split; auto; try (by apply Hmap).
  intros c Hc. by apply list_lookup_insert_ne.
Qed.

Lemma reader_step_frame_witness :
  let w := {| ks := ks Scenario.boot;
              tasks := [goto L67 (enter_read Scenario.blocking_file
                                    105 1 0)] |} in
  let w' := {| ks := snd (read_step 0 (goto L67
                                         (enter_read Scenario.blocking_file
                                            105 1 0)) (ks Scenario.boot));
               tasks := [goto (Ret (- EFAULT))
                           (enter_read Scenario.blocking_file 105 1 0)] |} in
  read_timer (ks w') = read_timer (ks w)
  /\ jiffies (ks w') = jiffies (ks w) /\ d (ks w') = d (ks w)
  /\ chardev_major (ks w') = chardev_major (ks w)
  /\ chardev_class (ks w') = chardev_class (ks w)
  /\ (forall a : Z,
        a < 105 \/ 105 + 4 <= a -> umem (ks w') !! a = umem (ks w) !! a)
  /\ (forall a : Z,
        is_Some (umem (ks w') !! a) <-> is_Some (umem (ks w) !! a))
  /\ (forall c : nat, c <> 0%nat -> tasks w' !! c = tasks w !! c).
Proof.
  intros w w'.
  assert (He : exec Scenario.HZ (EvStep 0%nat) w = Some w')
    by (vm_compute; reflexivity).
  exact (reader_step_frame Scenario.HZ 0%nat w w'
           (goto L67 (enter_read Scenario.blocking_file 105 1 0))
           He eq_refl).
Defined.








(** Clock ticks and whole calls of the timer function leave the callers
    and user memory alone, and the flag is set after the first call. *)
Lemma run_ticks_and_fires (HZ : Z) (sched : list event) (w w1 : world) :
  Forall (fun e => e = EvTick \/ e = EvFire) sched ->
  run HZ sched w = Some w1 ->
  tasks w1 = tasks w /\ umem (ks w1) = umem (ks w)
  /\ (counter (ks w1) = 1
      \/ (fires sched = O /\ counter (ks w1) = counter (ks w))).
Proof.
  revert w. induction sched as [|e rest IH]; intros w Hall Hrun.
  - injection Hrun as <-. auto.
  - rewrite run_cons in Hrun.
    destruct (exec HZ e w) as [w'|] eqn:He; [|discriminate].
    apply Forall_cons in Hall as (Hhead & Hall).
    destruct (IH _ Hall Hrun) as (Ht & Hm & Hc).
    destruct Hhead as [-> | ->].
    + injection He as <-. simpl in *. auto.
    + apply exec_fire_inv in He as (_ & _ & _ & ->).
      rewrite timer_func_effect in *. simpl in *.
      repeat split; auto. left. destruct Hc as [?|(_ & ?)]; done.
Qed.

(** X14.  Readiness is a flag, not a count.  However many times the
    timer has fired since the last read (at least once; the schedule is
    one of clock ticks and calls of the timer function), one read takes
    the readiness and returns 4 (provided its copy succeeds), and the read
    after it finds the flag empty: in non-blocking mode it returns
    -EAGAIN, in blocking mode it sleeps. *)
Theorem timer_fires_coalesce
  (HZ : Z) (w w1 : world) (sched : list event)
  (cur : nat) (f : file) (buf count off : Z)
  (cur' : nat) (f' : file) (buf' count' off' : Z) :
  Forall (fun e => e = EvTick \/ e = EvFire) sched ->
  (0 < fires sched)%nat ->
  run HZ sched w = Some w1 ->
  fst (copy_to_user buf payload (umem (ks w))) = 0 ->
  let '(t1, s2) := chardev_read cur f buf count off (ks w1) in
  let '(t2, s3) := chardev_read cur' f' buf' count' off' s2 in
  retval t1 = Some 4
  /\ counter s2 = 0
  /\ retval t2 = (if nonblocking f' then Some (- EAGAIN) else None).
Proof.
  intros Hall Hfires Hrun Hcopy.
  destruct (run_ticks_and_fires _ _ _ _ Hall Hrun) as (_ & Hm & Hc).
  assert (Hc1 : counter (ks w1) = 1) by (destruct Hc as [?|(? & _)]; [done|lia]).
  rewrite chardev_read_flag_set by (unfold atomic_read; lia).
  rewrite Hm.
  destruct (copy_to_user buf payload (umem (ks w))) as [uncopied m].
  simpl in Hcopy. subst uncopied. cbn [Z.eqb].
  rewrite chardev_read_flag_clear by done.
  by destruct (nonblocking f').
Qed.

Lemma timer_fires_coalesce_witness :
  let '(t1, s2) := chardev_read 0 Scenario.blocking_file 100 4 0
                     (ks Scenario.fired_twice) in
  let '(t2, s3) := chardev_read 1 Scenario.nonblocking_file 104 4 0 s2 in
  retval t1 = Some 4
  /\ counter s2 = 0
  /\ retval t2 = (if nonblocking Scenario.nonblocking_file
                  then Some (- EAGAIN) else None).
Proof.
  assert (Hall : Forall (fun e => e = EvTick \/ e = EvFire)
                   Scenario.two_fires).
  { assert (Hrep : forall n : nat,
              Forall (fun e => e = EvTick \/ e = EvFire) (repeat EvTick n))
      by (induction n; simpl; constructor; auto).
    unfold Scenario.two_fires. rewrite !Forall_app.
    repeat split; auto; apply Forall_singleton; auto. }
  assert (Hfires : (0 < fires Scenario.two_fires)%nat)
    by (vm_compute; lia).
  assert (Hrun : run Scenario.HZ Scenario.two_fires Scenario.boot
                 = Some Scenario.fired_twice) by (vm_compute; reflexivity).
  exact (timer_fires_coalesce Scenario.HZ Scenario.boot Scenario.fired_twice
           Scenario.two_fires
           0 Scenario.blocking_file 100 4 0
           1 Scenario.nonblocking_file 104 4 0 Hall Hfires Hrun eq_refl).
Defined.
